(** * switchbot-controller: the MQTT subscriber (src/subscriber/controller.py)

    A shallow embedding of the subscriber's callbacks and of its main flow,
    and the properties of the connection-recovery and message-dispatch
    protocol proved about them.

    The module keeps two globals, [received_count] and [received_all_event],
    and hands every decoded payload to [service.exec_switchbot] together
    with the shared [state_repository].  The callbacks mutate these and call
    into awscrt, logging and sys; here they are programs of a small
    state-and-exception monad over a [world] that holds the globals and a
    chronological trace of the calls made to the outside. *)

From Stdlib Require Import ZArith NArith List String Bool Lia.
From Stdlib Require Import Strings.Byte.
Import ListNotations.
Open Scope string_scope.
Open Scope list_scope.
Open Scope Z_scope.

Set Implicit Arguments.

(** ** Python values the module handles *)

(** [bytes]: the raw payload awscrt passes to the message callback. *)
Definition bytes := list byte.

(** [str]: a sequence of Unicode code points. *)
Definition text := list N.

(** [payload.decode("utf-8")], error handler "strict": well-formed UTF-8
    only (no overlong forms, no surrogates, nothing above U+10FFFF).
    [None] stands for the UnicodeDecodeError Python raises. *)
Module Utf8.

Definition is_cont (b : byte) : bool :=
  let n := Byte.to_N b in ((0x80 <=? n) && (n <=? 0xBF))%N.

Definition in_range (lo hi : N) (b : byte) : bool :=
  let n := Byte.to_N b in ((lo <=? n) && (n <=? hi))%N.

Definition low6 (b : byte) : N := N.land (Byte.to_N b) 0x3F.

Definition cp2 (b0 b1 : byte) : N :=
  N.lor (N.shiftl (N.land (Byte.to_N b0) 0x1F) 6) (low6 b1).

Definition cp3 (b0 b1 b2 : byte) : N :=
  N.lor (N.shiftl (N.land (Byte.to_N b0) 0x0F) 12)
        (N.lor (N.shiftl (low6 b1) 6) (low6 b2)).

Definition cp4 (b0 b1 b2 b3 : byte) : N :=
  N.lor (N.shiftl (N.land (Byte.to_N b0) 0x07) 18)
        (N.lor (N.shiftl (low6 b1) 12)
               (N.lor (N.shiftl (low6 b2) 6) (low6 b3))).

(** Range allowed for the second byte, by lead byte: this is what rules
    out overlong forms (E0, F0), surrogates (ED) and code points above
    U+10FFFF (F4). *)
Definition second_ok (b0 b1 : byte) : bool :=
  let n0 := Byte.to_N b0 in
  if (n0 =? 0xE0)%N then in_range 0xA0 0xBF b1
  else if (n0 =? 0xED)%N then in_range 0x80 0x9F b1
  else if (n0 =? 0xF0)%N then in_range 0x90 0xBF b1
  else if (n0 =? 0xF4)%N then in_range 0x80 0x8F b1
  else is_cont b1.

Fixpoint decode (bs : bytes) : option text :=
  match bs with
  | [] => Some []
  | b0 :: r0 =>
    let n0 := Byte.to_N b0 in
    if (n0 <? 0x80)%N then option_map (cons n0) (decode r0)
    else if in_range 0xC2 0xDF b0 then
      match r0 with
      | b1 :: r1 =>
        if is_cont b1 then option_map (cons (cp2 b0 b1)) (decode r1)
        else None
      | _ => None
      end
    else if in_range 0xE0 0xEF b0 then
      match r0 with
      | b1 :: b2 :: r2 =>
        if second_ok b0 b1 && is_cont b2
        then option_map (cons (cp3 b0 b1 b2)) (decode r2)
        else None
      | _ => None
      end
    else if in_range 0xF0 0xF4 b0 then
      match r0 with
      | b1 :: b2 :: b3 :: r3 =>
        if second_ok b0 b1 && is_cont b2 && is_cont b3
        then option_map (cons (cp4 b0 b1 b2 b3)) (decode r3)
        else None
      | _ => None
      end
    else None
  end.

End Utf8.

(** [mqtt.ConnectReturnCode] of awscrt. *)
Inductive ConnectReturnCode :=
| ACCEPTED
| UNACCEPTABLE_PROTOCOL_VERSION
| IDENTIFIER_REJECTED
| SERVER_UNAVAILABLE
| BAD_USERNAME_OR_PASSWORD
| NOT_AUTHORIZED.

Definition return_code_eqb (a b : ConnectReturnCode) : bool :=
  match a, b with
  | ACCEPTED, ACCEPTED
  | UNACCEPTABLE_PROTOCOL_VERSION, UNACCEPTABLE_PROTOCOL_VERSION
  | IDENTIFIER_REJECTED, IDENTIFIER_REJECTED
  | SERVER_UNAVAILABLE, SERVER_UNAVAILABLE
  | BAD_USERNAME_OR_PASSWORD, BAD_USERNAME_OR_PASSWORD
  | NOT_AUTHORIZED, NOT_AUTHORIZED => true
  | _, _ => false
  end.

(** [mqtt.QoS] of awscrt. *)
Inductive QoS := AT_MOST_ONCE | AT_LEAST_ONCE | EXACTLY_ONCE.

(** The dict a resubscribe future resolves to: its 'topics' entry, one
    (topic, qos) pair per restored topic, [None] for a rejected one. *)
Definition resubscribe_results := list (string * option QoS).

(** Exceptions that travel through this module. *)
Inductive exn :=
| UnicodeDecodeError
| SystemExit (arg : string)          (* sys.exit(<str>) *)
| AwsCrtError (name : string)        (* set on a future by awscrt *)
| ServiceError (name : string).      (* raised inside service.exec_switchbot *)

(** Python's [Exception] subclasses, as against the other
    [BaseException]s: [SystemExit] is not an [Exception]. *)
Definition is_exception (e : exn) : bool :=
  match e with
  | SystemExit _ => false
  | _ => true
  end.

(** What a [Future] holds once it is done. *)
Inductive future_result (A : Type) :=
| FutureValue (v : A)
| FutureException (e : exn).
Arguments FutureException {A} e.

(** The callable this module attaches to a future. *)
Inductive done_callback := cb_on_resubscribe_complete.

(** Parsed command line, the fields the subscriber reads.  [--count] is
    declared [type=int]: any Python integer. *)
Record arguments := {
  endpoint : string;
  client_id : string;
  topic : string;
  count : Z
}.

(** ** Calls to the outside, as recorded in the trace *)

(** One constructor per logging call of the source: its format string,
    with the values formatted into it. *)
Inductive log_record :=
| ConnectionInterrupted (error : string)
| ConnectionResumed (return_code : ConnectReturnCode) (session_present : bool)
| SessionDidNotPersist
| ResubscribeResults (results : resubscribe_results)
| ReceivedMessage (topic : string) (payload : bytes)
| ConnectingTo (endpoint client_id : string)
| Connected
| SubscribingTo (topic : string)
| SubscribedWith (qos : QoS)
| MessagesReceived (n : Z)
| Disconnecting
| Disconnected.

Inductive effect :=
| LogError (r : log_record)                    (* logging.error *)
| LogInfo (r : log_record)                     (* logging.info *)
| ExecSwitchbot (decoded : text)               (* service.exec_switchbot(decoded, state_repository) *)
| EventSet                                     (* received_all_event.set() *)
| EventWait                                    (* received_all_event.wait() *)
| ResubscribeExistingTopics (future : nat)     (* connection.resubscribe_existing_topics() *)
| AddDoneCallback (future : nat) (cb : done_callback)
| FutureResult                                 (* <future>.result() *)
| MtlsFromPath
| Connect
| Subscribe (topic : string) (qos : QoS)          (* callback=on_message_received *)
| Disconnect.

(** Messages and connection events, as the transport surfaces them on its
    delivery thread. *)
Inductive future_cell :=
| Pending (done_callbacks : list done_callback)
| Done.

Inductive event :=
| Interrupted (error : string)
| Resumed (return_code : ConnectReturnCode) (session_present : bool)
| ResubscribeDone (future : nat) (res : future_result resubscribe_results)
| Message (topic : string) (payload : bytes).

(** How the delivery thread runs against the main flow once the gate is
    set: the number of further events it handles before the main flow
    reads the counter for its log entry, before it logs that it
    disconnects, before it calls [disconnect()], and before that call's
    result arrives. *)
Record race := {
  before_count : nat;
  before_disconnecting : nat;
  before_disconnect : nat;
  before_disconnected : nat
}.

(** What the broker and the transport answer during one run of the main
    flow, and how the two threads run against each other. *)
Record broker := {
  connect_answer : future_result bool;        (* the dict's 'session_present' *)
  subscribe_answer : future_result QoS;       (* the dict's 'qos' *)
  deliveries : list event;
  disconnect_answer : future_result unit;
  overlap : race
}.

(** ** What a trace shows *)

Definition is_event_set (e : effect) : bool :=
  match e with EventSet => true | _ => false end.

Definition is_resubscribe (e : effect) : bool :=
  match e with ResubscribeExistingTopics _ => true | _ => false end.

Definition is_subscribe (e : effect) : bool :=
  match e with Subscribe _ _ => true | _ => false end.

(** A call that waits for something: [<future>.result()] or
    [received_all_event.wait()]. *)
Definition is_wait (e : effect) : bool :=
  match e with FutureResult | EventWait => true | _ => false end.

(** Number of [received_all_event.set()] calls. *)
Definition set_calls (tr : list effect) : nat :=
  List.length (filter is_event_set tr).

(** Number of resubscribe-all requests. *)
Definition resubscribe_requests (tr : list effect) : nat :=
  List.length (filter is_resubscribe tr).

(** Arguments of the calls to the command processor, oldest first. *)
Fixpoint processor_calls (tr : list effect) : list text :=
  match tr with
  | [] => []
  | ExecSwitchbot decoded :: rest => decoded :: processor_calls rest
  | _ :: rest => processor_calls rest
  end.

Definition is_message (ev : event) : bool :=
  match ev with Message _ _ => true | _ => false end.

(** Number of message deliveries among the events. *)
Definition message_count (evs : list event) : nat :=
  List.length (filter is_message evs).

(** The events of a list of (topic, payload) messages. *)
Definition messages (ms : list (string * bytes)) : list event :=
  map (fun m => Message (fst m) (snd m)) ms.

(** A message whose payload is UTF-8. *)
Definition decodable (ev : event) : bool :=
  match ev with
  | Message _ payload =>
    match Utf8.decode payload with Some _ => true | None => false end
  | _ => false
  end.

(** The decoded payloads of the messages that are UTF-8, in the order of
    the list. *)
Fixpoint decoded_payloads (ms : list (string * bytes)) : list text :=
  match ms with
  | [] => []
  | (_, payload) :: rest =>
    match Utf8.decode payload with
    | Some decoded => decoded :: decoded_payloads rest
    | None => decoded_payloads rest
    end
  end.

(** A topic the broker refused to restore. *)
Definition rejected (results : resubscribe_results) (t : string) : Prop :=
  In (t, None) results.

(** The first rejected topic, if any. *)
Fixpoint first_rejected (results : resubscribe_results) : option string :=
  match results with
  | [] => None
  | (t, None) :: _ => Some t
  | (_, Some _) :: rest => first_rejected rest
  end.

Definition is_disconnect (e : effect) : bool :=
  match e with Disconnect => true | _ => false end.

(** The calls the main flow makes on the connection and on the gate:
    building the connection, connect, subscribe, disconnect, wait. *)
Definition is_main_call (e : effect) : bool :=
  match e with
  | MtlsFromPath | Connect | Subscribe _ _ | Disconnect | EventWait => true
  | _ => false
  end.

(** A resumption that makes the handler resubscribe. *)
Definition is_fresh_resume (ev : event) : bool :=
  match ev with
  | Resumed return_code session_present =>
    return_code_eqb return_code ACCEPTED && negb session_present
  | _ => false
  end.

(** A future as the callbacks leave it: done, or pending with
    [on_resubscribe_complete] attached once. *)
Definition future_ok (c : future_cell) : bool :=
  match c with
  | Done => true
  | Pending [cb_on_resubscribe_complete] => true
  | Pending _ => false
  end.

(** ** Start-up tables (lines 34 and 48-49)

    [--log-level] is declared with [choices] and a default; the level
    handed to [logging.basicConfig] is [loglevel_dict[args.log_level]], a
    lookup that raises KeyError ([None]) on a missing key.  The values are
    the constants of Python's logging module. *)
Module Startup.

Definition log_level_choices : list string :=
  ["INFO"; "DEBUG"; "ERROR"; "WARNING"].

Definition log_level_default : string := "INFO".

Definition logging_INFO : Z := 20.
Definition logging_DEBUG : Z := 10.
Definition logging_ERROR : Z := 40.
Definition logging_WARNING : Z := 30.

Definition loglevel_dict : list (string * Z) :=
  [ ("INFO", logging_INFO); ("DEBUG", logging_DEBUG);
    ("ERROR", logging_ERROR); ("WARNING", logging_WARNING) ].

(** [d[key]] *)
Fixpoint getitem (d : list (string * Z)) (key : string) : option Z :=
  match d with
  | [] => None
  | (k, v) :: rest => if String.eqb k key then Some v else getitem rest key
  end.

End Startup.

(** ** A sample collaborator and sample runs

    The store is the list of commands executed so far (newest first); the
    processor refuses the empty command. *)
Module Sample.

Definition Repo := list text.

Definition exec_switchbot (decoded : text) (repo : Repo) : Repo * option exn :=
  match decoded with
  | [] => (repo, Some (ServiceError "empty command"))
  | _ => (decoded :: repo, None)
  end.

Definition args_n (n : Z) : arguments :=
  {| endpoint := "example-ats.iot.us-east-1.amazonaws.com";
     client_id := "test-1";
     topic := "test/topic";
     count := n |}.

(* b"on", b"off", b"\xe2\x98\x80" (U+2600) *)
Definition on : bytes := [x6f; x6e].
Definition off : bytes := [x6f; x66; x66].
Definition sun : bytes := [xe2; x98; x80].
(* b"\xff" is not UTF-8 *)
Definition garbage : bytes := [xff].

Definition three : list (string * bytes) :=
  [("test/topic", on); ("test/topic", off); ("test/topic", sun)].

(* The main flow is quick: nothing more is handled once the gate is set. *)
Definition prompt : race :=
  {| before_count := 0; before_disconnecting := 0;
     before_disconnect := 0; before_disconnected := 0 |}.

(* One more event is handled after the counter is logged. *)
Definition late_by_one : race :=
  {| before_count := 0; before_disconnecting := 1;
     before_disconnect := 0; before_disconnected := 0 |}.

Definition accepting (evs : list event) : broker :=
  {| connect_answer := FutureValue true;
     subscribe_answer := FutureValue AT_MOST_ONCE;
     deliveries := evs;
     disconnect_answer := FutureValue tt;
     overlap := prompt |}.

Definition overrunning (evs : list event) : broker :=
  {| connect_answer := FutureValue true;
     subscribe_answer := FutureValue AT_MOST_ONCE;
     deliveries := evs;
     disconnect_answer := FutureValue tt;
     overlap := late_by_one |}.

Definition refusing : broker :=
  {| connect_answer := FutureException (AwsCrtError "AWS_ERROR_MQTT_UNEXPECTED_HANGUP");
     subscribe_answer := FutureValue AT_MOST_ONCE;
     deliveries := messages three;
     disconnect_answer := FutureValue tt;
     overlap := prompt |}.

(* An interruption in mid-stream, the session lost, one topic refused. *)
Definition lost_session : list event :=
  [ Message "test/topic" on;
    Interrupted "AWS_ERROR_MQTT_UNEXPECTED_HANGUP";
    Resumed ACCEPTED false;
    ResubscribeDone 0 (FutureValue [("test/topic", None)]);
    Message "test/topic" off ].

(* The same, with the topic restored. *)
Definition recovered : list event :=
  [ Interrupted "AWS_ERROR_MQTT_UNEXPECTED_HANGUP";
    Resumed ACCEPTED false;
    ResubscribeDone 0 (FutureValue [("test/topic", Some AT_MOST_ONCE)]) ].

(* A recovery that ends with the topic refused, no message around it. *)
Definition refused_cycle : list event :=
  [ Interrupted "AWS_ERROR_MQTT_UNEXPECTED_HANGUP";
    Resumed ACCEPTED false;
    ResubscribeDone 0 (FutureValue [("test/topic", None)]) ].


(* A payload that is not UTF-8, then one that is. *)
Definition mixed : list (string * bytes) :=
  [("test/topic", garbage); ("test/topic", on)].

(* Four messages around a recovered interruption. *)
Definition busy : list event :=
  Message "test/topic" on :: recovered ++ messages three.

End Sample.

(** ** The subscriber *)

Section Subscriber.

(** The collaborators: the state store behind [state_repository] and the
    command processor [service.exec_switchbot], which may change the
    store and may raise. *)
Variable Repo : Type.
Variable exec_switchbot : text -> Repo -> Repo * option exn.

(** [args = parser.parse_args()] *)
Variable args : arguments.

(** Module globals, the connection's resubscribe futures (the n-th one
    created sits at index n), and the calls made so far, oldest first. *)
Record world := {
  received_count : Z;
  received_all_event : bool;
  state_repository : Repo;
  futures : list future_cell;
  trace : list effect
}.

(** State at the end of module initialisation (lines 41-46). *)
Definition initial (repo : Repo) : world :=
  {| received_count := 0;
     received_all_event := false;
     state_repository := repo;
     futures := [];
     trace := [] |}.

(** A call either returns, raises, or never returns (only
    [received_all_event.wait()] can do the latter); the world it leaves
    behind is kept in every case. *)
Inductive result (A : Type) :=
| Returns (a : A) (w : world)
| Raises (e : exn) (w : world)
| Blocks (w : world).
Arguments Raises {A} e w.
Arguments Blocks {A} w.

Definition M (A : Type) := world -> result A.

Definition ret {A} (a : A) : M A := fun w => Returns a w.

Definition bind {A B} (m : M A) (k : A -> M B) : M B :=
  fun w =>
    match m w with
    | Returns a w' => k a w'
    | Raises e w' => Raises e w'
    | Blocks w' => Blocks w'
    end.

Definition raise {A} (e : exn) : M A := fun w => Raises e w.

Definition world_of {A} (r : result A) : world :=
  match r with
  | Returns _ w | Raises _ w | Blocks w => w
  end.

Notation "x <- m ;; k" := (bind m (fun x => k))
  (at level 61, m at next level, right associativity).
Notation "m ;; k" := (bind m (fun _ => k))
  (at level 61, right associativity).

Definition emit (e : effect) : M unit :=
  fun w =>
    Returns tt {| received_count := received_count w;
                  received_all_event := received_all_event w;
                  state_repository := state_repository w;
                  futures := futures w;
                  trace := trace w ++ [e] |}.

Definition logging_info (r : log_record) : M unit := emit (LogInfo r).
Definition logging_error (r : log_record) : M unit := emit (LogError r).

(** [sys.exit(msg)] with a string: raises SystemExit(msg). *)
Definition sys_exit {A} (msg : string) : M A := raise (SystemExit msg).

(** [payload.decode("utf-8")] *)
Definition bytes_decode (payload : bytes) : M text :=
  match Utf8.decode payload with
  | Some decoded => ret decoded
  | None => raise UnicodeDecodeError
  end.

(** [service.exec_switchbot(decoded, state_repository)] *)
Definition service_exec_switchbot (decoded : text) : M unit :=
  fun w =>
    let (repo', raised) := exec_switchbot decoded (state_repository w) in
    let w' := {| received_count := received_count w;
                 received_all_event := received_all_event w;
                 state_repository := repo';
                 futures := futures w;
                 trace := trace w ++ [ExecSwitchbot decoded] |} in
    match raised with
    | None => Returns tt w'
    | Some e => Raises e w'
    end.

(** [received_count += 1] *)
Definition increment_received_count : M unit :=
  fun w =>
    Returns tt {| received_count := received_count w + 1;
                  received_all_event := received_all_event w;
                  state_repository := state_repository w;
                  futures := futures w;
                  trace := trace w |}.

Definition read_received_count : M Z := fun w => Returns (received_count w) w.

(** [received_all_event.set()] *)
Definition received_all_event_set : M unit :=
  fun w =>
    Returns tt {| received_count := received_count w;
                  received_all_event := true;
                  state_repository := state_repository w;
                  futures := futures w;
                  trace := trace w ++ [EventSet] |}.

(** [connection.resubscribe_existing_topics()]: awscrt sends the request
    and hands back a future that is still pending; the packet id the
    source discards is left out. *)
Definition resubscribe_existing_topics : M nat :=
  fun w =>
    let future := List.length (futures w) in
    Returns future
            {| received_count := received_count w;
               received_all_event := received_all_event w;
               state_repository := state_repository w;
               futures := futures w ++ [Pending []];
               trace := trace w ++ [ResubscribeExistingTopics future] |}.

Fixpoint attach (cb : done_callback) (future : nat) (fs : list future_cell)
  : list future_cell :=
  match fs, future with
  | [], _ => []
  | Pending cbs :: rest, O => Pending (cbs ++ [cb]) :: rest
  | Done :: rest, O => Done :: rest
  | f :: rest, S n => f :: attach cb n rest
  end.

(** [<future>.add_done_callback(cb)].  The source calls it on the future
    it has just been handed, which is pending: the callback joins that
    future's list. *)
Definition add_done_callback (future : nat) (cb : done_callback) : M unit :=
  fun w =>
    Returns tt {| received_count := received_count w;
                  received_all_event := received_all_event w;
                  state_repository := state_repository w;
                  futures := attach cb future (futures w);
                  trace := trace w ++ [AddDoneCallback future cb] |}.

(** [<future>.result()] on a future that is done, or whose answer is the
    one given: the value, or the exception the future holds. *)
Definition future_get {A} (r : future_result A) : M A :=
  emit FutureResult ;;
  match r with
  | FutureValue v => ret v
  | FutureException e => raise e
  end.

(** *** The callbacks (lines 52-88) *)

(** Callback when connection is accidentally lost. *)
Definition on_connection_interrupted (error : string) : M unit :=
  logging_error (ConnectionInterrupted error).

(** The loop of [on_resubscribe_complete] over
    [resubscribe_results['topics']]. *)
Fixpoint for_topic_qos (topics : resubscribe_results) : M unit :=
  match topics with
  | [] => ret tt
  | (topic, qos) :: rest =>
    match qos with
    | None => sys_exit (String.append "Server rejected resubscribe to topic: " topic)
    | Some _ => for_topic_qos rest
    end
  end.

Definition on_resubscribe_complete
           (resubscribe_future : future_result resubscribe_results) : M unit :=
  resubscribe_results <- future_get resubscribe_future ;;
  logging_info (ResubscribeResults resubscribe_results) ;;
  for_topic_qos resubscribe_results.

(** Callback when an interrupted connection is re-established.  The
    [connection] argument is the one connection of the process, whose
    futures live in the world. *)
Definition on_connection_resumed
           (return_code : ConnectReturnCode) (session_present : bool) : M unit :=
  logging_info (ConnectionResumed return_code session_present) ;;
  if return_code_eqb return_code ACCEPTED && negb session_present then
    logging_info SessionDidNotPersist ;;
    resubscribe_future <- resubscribe_existing_topics ;;
    add_done_callback resubscribe_future cb_on_resubscribe_complete
  else ret tt.

(** Callback when the subscribed topic receives a message. *)
Definition on_message_received (topic : string) (payload : bytes) : M unit :=
  logging_info (ReceivedMessage topic payload) ;;
  decoded <- bytes_decode payload ;;
  service_exec_switchbot decoded ;;
  increment_received_count ;;
  n <- read_received_count ;;
  if n =? count args then received_all_event_set else ret tt.

(** *** The delivery thread

    awscrt calls the callbacks one at a time from its own thread, in the
    order the transport surfaces the events.  A resubscribe future that
    completes runs the callbacks attached to it, in the order they were
    attached. *)

Fixpoint callbacks_of (future : nat) (fs : list future_cell)
  : list done_callback :=
  match fs, future with
  | Pending cbs :: _, O => cbs
  | _ :: rest, S n => callbacks_of n rest
  | _, _ => []
  end.

Fixpoint mark_done (future : nat) (fs : list future_cell) : list future_cell :=
  match fs, future with
  | [], _ => []
  | _ :: rest, O => Done :: rest
  | f :: rest, S n => f :: mark_done n rest
  end.

Definition complete_future (future : nat) : M (list done_callback) :=
  fun w =>
    Returns (callbacks_of future (futures w))
            {| received_count := received_count w;
               received_all_event := received_all_event w;
               state_repository := state_repository w;
               futures := mark_done future (futures w);
               trace := trace w |}.

Definition call_done_callback
           (cb : done_callback) (res : future_result resubscribe_results)
  : M unit :=
  match cb with
  | cb_on_resubscribe_complete => on_resubscribe_complete res
  end.

(** The future runs its callbacks as concurrent.futures does: an
    [Exception] raised by one is caught there (and logged by that
    library), and the next callback is called; anything else, such as
    [SystemExit], leaves the loop. *)
Fixpoint invoke_callbacks
         (cbs : list done_callback) (res : future_result resubscribe_results)
  : M unit :=
  match cbs with
  | [] => ret tt
  | cb :: rest =>
    fun w =>
      match call_done_callback cb res w with
      | Returns _ w' => invoke_callbacks rest res w'
      | Raises e w' =>
        if is_exception e then invoke_callbacks rest res w' else Raises e w'
      | Blocks w' => Blocks w'
      end
  end.

Definition handle (ev : event) : M unit :=
  match ev with
  | Interrupted error => on_connection_interrupted error
  | Resumed return_code session_present =>
    on_connection_resumed return_code session_present
  | ResubscribeDone future res =>
    cbs <- complete_future future ;; invoke_callbacks cbs res
  | Message topic payload => on_message_received topic payload
  end.

(** The events of a run, handled in order.  The source catches no
    exception, and one that leaves a callback, [SystemExit] included,
    stays on the delivery thread: the transport reports it, keeps the
    world the callback left, and delivers the next event.  Nothing of it
    reaches the main flow. *)
Fixpoint deliver (evs : list event) : M unit :=
  match evs with
  | [] => ret tt
  | ev :: rest => fun w => deliver rest (world_of (handle ev w))
  end.

(** *** The main flow (lines 90-134)

    The main flow runs on its own thread.  The events of the run are
    delivered while it waits on [received_all_event]; once the gate is
    set it goes on, and the delivery thread goes on beside it, as the
    broker's [overlap] says, callback by callback. *)

(** The delivery thread up to the moment the gate is set: the events still
    to come, and the world at that moment. *)
Fixpoint until_set (evs : list event) (w : world) : list event * world :=
  match evs with
  | [] => ([], w)
  | ev :: rest =>
    if received_all_event w then (evs, w)
    else until_set rest (world_of (handle ev w))
  end.

(** [received_all_event.wait()]: returns when the gate is set, and never
    if it is not; the events still to come are handed on. *)
Definition received_all_event_wait (evs : list event) : M (list event) :=
  emit EventWait ;;
  fun w =>
    let (late, w') := until_set evs w in
    if received_all_event w' then Returns late w' else Blocks w'.

(** The delivery thread handles [k] more events. *)
Definition race_on (k : nat) (late : list event) : M (list event) :=
  fun w => Returns (skipn k late) (world_of (deliver (firstn k late) w)).

Definition main (b : broker) : M unit :=
  emit MtlsFromPath ;;
  logging_info (ConnectingTo (endpoint args) (client_id args)) ;;
  emit Connect ;;
  _ <- future_get (connect_answer b) ;;
  logging_info Connected ;;
  logging_info (SubscribingTo (topic args)) ;;
  emit (Subscribe (topic args) AT_MOST_ONCE) ;;
  granted <- future_get (subscribe_answer b) ;;
  logging_info (SubscribedWith granted) ;;
  late <- received_all_event_wait (deliveries b) ;;
  late <- race_on (before_count (overlap b)) late ;;
  n <- read_received_count ;;
  logging_info (MessagesReceived n) ;;
  late <- race_on (before_disconnecting (overlap b)) late ;;
  logging_info Disconnecting ;;
  late <- race_on (before_disconnect (overlap b)) late ;;
  emit Disconnect ;;
  _ <- race_on (before_disconnected (overlap b)) late ;;
  future_get (disconnect_answer b) ;;
  logging_info Disconnected.

(** Exit status of the interpreter, decided by the main flow alone: 0 when
    it runs to its end, 1 when an exception raised on it ends it, none
    while it waits. *)
Definition exit_status {A} (r : result A) : option Z :=
  match r with
  | Returns _ _ => Some 0
  | Raises _ _ => Some 1
  | Blocks _ => None
  end.

(** *** Vocabulary of the statements *)

(** [w] with [delta] appended to its trace, nothing else touched. *)
Definition extend (w : world) (delta : list effect) : world :=
  {| received_count := received_count w;
     received_all_event := received_all_event w;
     state_repository := state_repository w;
     futures := futures w;
     trace := trace w ++ delta |}.

Definition returned {A} (r : result A) : bool :=
  match r with Returns _ _ => true | _ => false end.

(** An effect that is neither a call to the processor nor a
    [received_all_event.set()]. *)
Definition is_quiet (e : effect) : bool :=
  match e with
  | ExecSwitchbot _ | EventSet => false
  | _ => true
  end.

(** The dispatcher's variables and the store are those of [w]; the trace
    grew by effects that are not the dispatcher's. *)
Definition dispatcher_unchanged (w w' : world) : Prop :=
  received_count w' = received_count w /\
  received_all_event w' = received_all_event w /\
  state_repository w' = state_repository w /\
  exists delta, trace w' = trace w ++ delta /\ forallb is_quiet delta = true.

(** The gate follows the counter: it is set, by one [set()] call, exactly
    when the counter has reached the target. *)
Definition gate_tracks (w : world) : Prop :=
  received_all_event w = (count args <=? received_count w) /\
  set_calls (trace w)
  = if count args <=? received_count w then 1%nat else 0%nat.

(** Number of message-handler invocations that returned during the run of
    [evs] from [w]. *)
Fixpoint handled (evs : list event) (w : world) : nat :=
  match evs with
  | [] => 0%nat
  | ev :: rest =>
    ((if is_message ev && returned (handle ev w) then 1 else 0)
     + handled rest (world_of (handle ev w)))%nat
  end.

(** The store after the processor has been called with [texts] in turn,
    whether or not a call raised. *)
Definition run_store (texts : list text) (repo : Repo) : Repo :=
  fold_left (fun r decoded => fst (exec_switchbot decoded r)) texts repo.

(** The calls of the main flow, by stage. *)
Definition connecting : list effect :=
  [ MtlsFromPath;
    LogInfo (ConnectingTo (endpoint args) (client_id args));
    Connect;
    FutureResult ].

Definition subscribing : list effect :=
  [ LogInfo Connected;
    LogInfo (SubscribingTo (topic args));
    Subscribe (topic args) AT_MOST_ONCE;
    FutureResult ].

(** The world in which the main flow starts to wait. *)
Definition waiting (granted : QoS) (repo : Repo) : world :=
  extend (initial repo)
         (connecting ++ subscribing ++
          [LogInfo (SubscribedWith granted); EventWait]).

(** The main flow from the return of [wait()] on, with [late] the events
    still to come. *)
Definition after_wait (b : broker) (late : list event) : M unit :=
  late <- race_on (before_count (overlap b)) late ;;
  n <- read_received_count ;;
  logging_info (MessagesReceived n) ;;
  late <- race_on (before_disconnecting (overlap b)) late ;;
  logging_info Disconnecting ;;
  late <- race_on (before_disconnect (overlap b)) late ;;
  emit Disconnect ;;
  _ <- race_on (before_disconnected (overlap b)) late ;;
  future_get (disconnect_answer b) ;;
  logging_info Disconnected.

(** What holds of the world once the gate is set, with [late] the events
    still to come: the gate follows the counter, the counter has reached
    the target and cannot pass [bound], and [disconnect()] was called [d]
    times. *)
Definition on_track (bound : Z) (d : nat) (late : list event) (w : world)
  : Prop :=
  gate_tracks w /\
  count args <= received_count w /\
  received_count w + Z.of_nat (message_count late) <= bound /\
  List.length (filter is_disconnect (trace w)) = d.

(** ** Properties *)

(** *** Traces *)

Lemma set_calls_app (a b : list effect) :
  set_calls (a ++ b) = (set_calls a + set_calls b)%nat.
Proof. unfold set_calls. now rewrite filter_app, length_app. Qed.

Lemma resubscribe_requests_app (a b : list effect) :
  resubscribe_requests (a ++ b)
  = (resubscribe_requests a + resubscribe_requests b)%nat.
Proof. unfold resubscribe_requests. now rewrite filter_app, length_app. Qed.

Lemma processor_calls_app (a b : list effect) :
  processor_calls (a ++ b) = processor_calls a ++ processor_calls b.
Proof.
  induction a as [|e a IH]; simpl; [reflexivity|].
  destruct e; simpl; now rewrite ?IH.
Qed.

Lemma quiet_set_calls (delta : list effect) :
  forallb is_quiet delta = true -> set_calls delta = 0%nat.
Proof.
  unfold set_calls.
  induction delta as [|e delta IH]; simpl; [reflexivity|].
  intros H. apply andb_prop in H. destruct H as [He Hd].
  destruct e; simpl in *; try discriminate; auto.
Qed.

Lemma quiet_processor_calls (delta : list effect) :
  forallb is_quiet delta = true -> processor_calls delta = [].
Proof.
  induction delta as [|e delta IH]; simpl; [reflexivity|].
  intros H. apply andb_prop in H. destruct H as [He Hd].
  destruct e; simpl in *; try discriminate; auto.
Qed.

Lemma dispatcher_unchanged_refl (w : world) : dispatcher_unchanged w w.
Proof.
  repeat split. exists []. now rewrite app_nil_r.
Qed.

Lemma dispatcher_unchanged_trans (w1 w2 w3 : world) :
  dispatcher_unchanged w1 w2 -> dispatcher_unchanged w2 w3 ->
  dispatcher_unchanged w1 w3.
Proof.
  intros (Hc & Hg & Hr & d1 & Ht1 & Hq1) (Hc' & Hg' & Hr' & d2 & Ht2 & Hq2).
  repeat split; try congruence.
  exists (d1 ++ d2). split.
  - now rewrite Ht2, Ht1, app_assoc.
  - now rewrite forallb_app, Hq1, Hq2.
Qed.

Lemma dispatcher_unchanged_extend (w : world) (delta : list effect) :
  forallb is_quiet delta = true -> dispatcher_unchanged w (extend w delta).
Proof.
  intros H. repeat split. now exists delta.
Qed.

Lemma dispatcher_unchanged_set_calls (w w' : world) :
  dispatcher_unchanged w w' -> set_calls (trace w') = set_calls (trace w).
Proof.
  intros (_ & _ & _ & d & Ht & Hq).
  rewrite Ht, set_calls_app, (quiet_set_calls _ Hq). lia.
Qed.

Lemma dispatcher_unchanged_calls (w w' : world) :
  dispatcher_unchanged w w' ->
  processor_calls (trace w') = processor_calls (trace w).
Proof.
  intros (_ & _ & _ & d & Ht & Hq).
  now rewrite Ht, processor_calls_app, (quiet_processor_calls _ Hq), app_nil_r.
Qed.

(** *** The callbacks, one equation each *)

Lemma on_connection_interrupted_eq (error : string) (w : world) :
  on_connection_interrupted error w
  = Returns tt (extend w [LogError (ConnectionInterrupted error)]).
Proof. reflexivity. Qed.

Lemma attach_fresh (cb : done_callback) (fs : list future_cell) :
  attach cb (List.length fs) (fs ++ [Pending []]) = fs ++ [Pending [cb]].
Proof.
  induction fs as [|f fs IH]; simpl; [reflexivity|].
  rewrite IH. now destruct f.
Qed.

Lemma on_connection_resumed_eq
      (return_code : ConnectReturnCode) (session_present : bool) (w : world) :
  on_connection_resumed return_code session_present w
  = Returns tt
      (if return_code_eqb return_code ACCEPTED && negb session_present then
         {| received_count := received_count w;
            received_all_event := received_all_event w;
            state_repository := state_repository w;
            futures := futures w ++ [Pending [cb_on_resubscribe_complete]];
            trace := trace w ++
              [ LogInfo (ConnectionResumed return_code session_present);
                LogInfo SessionDidNotPersist;
                ResubscribeExistingTopics (List.length (futures w));
                AddDoneCallback (List.length (futures w))
                                cb_on_resubscribe_complete ] |}
       else
         extend w [LogInfo (ConnectionResumed return_code session_present)]).
Proof.
  unfold on_connection_resumed, bind, logging_info, emit.
  destruct (return_code_eqb return_code ACCEPTED && negb session_present);
    [|reflexivity].
  unfold resubscribe_existing_topics, add_done_callback, bind. simpl.
  rewrite attach_fresh. repeat rewrite <- app_assoc. reflexivity.
Qed.

Lemma for_topic_qos_eq (results : resubscribe_results) (w : world) :
  for_topic_qos results w
  = match first_rejected results with
    | Some t =>
      Raises (SystemExit (String.append "Server rejected resubscribe to topic: " t)) w
    | None => Returns tt w
    end.
Proof.
  induction results as [|[t [q|]] rest IH]; simpl; auto.
Qed.

Lemma on_resubscribe_complete_eq
      (res : future_result resubscribe_results) (w : world) :
  on_resubscribe_complete res w
  = match res with
    | FutureException e => Raises e (extend w [FutureResult])
    | FutureValue results =>
      let w' := extend w [FutureResult; LogInfo (ResubscribeResults results)] in
      match first_rejected results with
      | Some t =>
        Raises (SystemExit (String.append "Server rejected resubscribe to topic: " t)) w'
      | None => Returns tt w'
      end
    end.
Proof.
  unfold on_resubscribe_complete, future_get, bind, logging_info, emit, raise, ret.
  destruct res as [results|e]; [|reflexivity].
  rewrite for_topic_qos_eq. unfold extend. simpl.
  repeat rewrite <- app_assoc. reflexivity.
Qed.

Lemma on_message_received_eq (topic : string) (payload : bytes) (w : world) :
  on_message_received topic payload w
  = match Utf8.decode payload with
    | None =>
      Raises UnicodeDecodeError
             (extend w [LogInfo (ReceivedMessage topic payload)])
    | Some decoded =>
      let (repo', raised) := exec_switchbot decoded (state_repository w) in
      let called := [ LogInfo (ReceivedMessage topic payload);
                      ExecSwitchbot decoded ] in
      match raised with
      | Some e =>
        Raises e {| received_count := received_count w;
                    received_all_event := received_all_event w;
                    state_repository := repo';
                    futures := futures w;
                    trace := trace w ++ called |}
      | None =>
        let hit := received_count w + 1 =? count args in
        Returns tt
                {| received_count := received_count w + 1;
                   received_all_event := received_all_event w || hit;
                   state_repository := repo';
                   futures := futures w;
                   trace := trace w ++ called ++
                                  (if hit then [EventSet] else []) |}
      end
    end.
Proof.
  unfold on_message_received, bind, logging_info, emit, bytes_decode.
  destruct (Utf8.decode payload) as [decoded|]; [|reflexivity].
  unfold ret, service_exec_switchbot. simpl.
  destruct (exec_switchbot decoded (state_repository w)) as [repo' [e|]].
  - now rewrite <- app_assoc.
  - unfold increment_received_count, read_received_count, received_all_event_set, ret.
    simpl.
    destruct (received_count w + 1 =? count args); simpl.
    + rewrite orb_true_r. repeat rewrite <- app_assoc. reflexivity.
    + rewrite orb_false_r. repeat rewrite <- app_assoc. reflexivity.
Qed.

(** *** Events that are not messages leave the dispatcher alone *)

Lemma on_resubscribe_complete_unchanged
      (res : future_result resubscribe_results) (w : world) :
  dispatcher_unchanged w (world_of (on_resubscribe_complete res w)).
Proof.
  rewrite on_resubscribe_complete_eq.
  destruct res as [results|e]; simpl.
  - destruct (first_rejected results); simpl;
      now apply dispatcher_unchanged_extend.
  - now apply dispatcher_unchanged_extend.
Qed.

Lemma invoke_callbacks_unchanged
      (cbs : list done_callback) (res : future_result resubscribe_results) :
  forall w : world,
    dispatcher_unchanged w (world_of (invoke_callbacks cbs res w)).
Proof.
  induction cbs as [|cb cbs IH]; intros w; simpl.
  - apply dispatcher_unchanged_refl.
  - destruct cb; simpl.
    pose proof (on_resubscribe_complete_unchanged res w) as H.
    destruct (on_resubscribe_complete res w) as [[] w1|e w1|w1]; simpl in *;
      auto.
    + eapply dispatcher_unchanged_trans; [exact H|apply IH].
    + destruct (is_exception e); simpl; auto.
      eapply dispatcher_unchanged_trans; [exact H|apply IH].
Qed.

Lemma handle_lifecycle (ev : event) (w : world) :
  is_message ev = false -> dispatcher_unchanged w (world_of (handle ev w)).
Proof.
  destruct ev as [error|rc sp|future res|topic payload]; simpl; intros Hm;
    try discriminate.
  - now apply dispatcher_unchanged_extend.
  - rewrite on_connection_resumed_eq. simpl.
    destruct (return_code_eqb rc ACCEPTED && negb sp).
    + repeat split. simpl. eexists. split; [reflexivity|reflexivity].
    + now apply dispatcher_unchanged_extend.
  - unfold bind, complete_future.
    eapply dispatcher_unchanged_trans;
      [|apply invoke_callbacks_unchanged].
    repeat split. exists []. simpl. now rewrite app_nil_r.
Qed.

(** *** One event: what it does to the counter and to the gate *)

Ltac solve_counts :=
  rewrite ?set_calls_app; unfold set_calls; simpl;
  rewrite ?orb_false_r, ?orb_true_r;
  repeat split; try reflexivity; try lia.

Lemma handle_counts (ev : event) (w : world) :
  let r := handle ev w in
  let advanced := is_message ev && returned r in
  let hit := advanced && (received_count w + 1 =? count args) in
  received_count (world_of r)
  = received_count w + (if advanced then 1 else 0) /\
  received_all_event (world_of r) = received_all_event w || hit /\
  set_calls (trace (world_of r))
  = (set_calls (trace w) + (if hit then 1 else 0))%nat.
Proof.
  destruct (is_message ev) eqn:Hm.
  - destruct ev as [| | |topic payload]; try discriminate. simpl.
    rewrite on_message_received_eq.
    destruct (Utf8.decode payload) as [decoded|]; simpl.
    + destruct (exec_switchbot decoded (state_repository w)) as [repo' [e|]];
        simpl; [solve_counts|].
      destruct (received_count w + 1 =? count args); simpl; solve_counts.
    + solve_counts.
  - simpl. pose proof (handle_lifecycle ev w Hm) as H.
    pose proof (dispatcher_unchanged_set_calls H) as Hs.
    destruct H as (Hc & Hg & _).
    rewrite Hc, Hg, Hs. solve_counts.
Qed.

(** *** Runs *)

Lemma deliver_returns (evs : list event) :
  forall w : world, deliver evs w = Returns tt (world_of (deliver evs w)).
Proof.
  induction evs as [|ev evs IH]; intros w; simpl; [reflexivity|apply IH].
Qed.

Lemma deliver_app (evs1 evs2 : list event) :
  forall w : world,
    deliver (evs1 ++ evs2) w = deliver evs2 (world_of (deliver evs1 w)).
Proof.
  induction evs1 as [|ev evs1 IH]; intros w; simpl; [reflexivity|apply IH].
Qed.

Lemma deliver_lifecycle (evs : list event) :
  forallb (fun ev => negb (is_message ev)) evs = true ->
  forall w : world, dispatcher_unchanged w (world_of (deliver evs w)).
Proof.
  induction evs as [|ev evs IH]; simpl; intros H w.
  - apply dispatcher_unchanged_refl.
  - apply andb_prop in H. destruct H as [Hev Hevs].
    apply negb_true_iff in Hev.
    eapply dispatcher_unchanged_trans;
      [exact (handle_lifecycle ev w Hev)|now apply IH].
Qed.

Lemma handle_gate_tracks (ev : event) (w : world) :
  gate_tracks w -> gate_tracks (world_of (handle ev w)).
Proof.
  intros [Hg Hs].
  destruct (handle_counts ev w) as (Hc' & Hg' & Hs').
  unfold gate_tracks. rewrite Hc', Hg', Hs', Hg, Hs. clear.
  destruct (is_message ev && returned (handle ev w)); simpl.
  - destruct (Z.leb_spec (count args) (received_count w));
      destruct (Z.eqb_spec (received_count w + 1) (count args));
      destruct (Z.leb_spec (count args) (received_count w + 1));
      simpl; split; try reflexivity; lia.
  - rewrite Z.add_0_r, orb_false_r, Nat.add_0_r. now split.
Qed.

Lemma deliver_gate_tracks (evs : list event) :
  forall w : world, gate_tracks w -> gate_tracks (world_of (deliver evs w)).
Proof.
  induction evs as [|ev evs IH]; intros w H; simpl; [exact H|].
  apply IH. now apply handle_gate_tracks.
Qed.

Lemma deliver_count (evs : list event) :
  forall w : world,
    received_count (world_of (deliver evs w))
    = received_count w + Z.of_nat (handled evs w).
Proof.
  induction evs as [|ev evs IH]; intros w; simpl.
  - lia.
  - destruct (handle_counts ev w) as (Hc & _).
    rewrite IH, Hc.
    destruct (is_message ev && returned (handle ev w)); lia.
Qed.

Lemma handled_le_messages (evs : list event) :
  forall w : world, (handled evs w <= message_count evs)%nat.
Proof.
  unfold message_count.
  induction evs as [|ev evs IH]; intros w; simpl; [lia|].
  specialize (IH (world_of (handle ev w))).
  destruct (is_message ev); simpl;
    destruct (returned (handle ev w)); simpl; lia.
Qed.

(** With a target that is zero or negative the counter, which starts at 0
    and only grows, never meets it. *)
Lemma handle_never_hits (ev : event) (w : world) :
  count args <= 0 -> 0 <= received_count w ->
  let w' := world_of (handle ev w) in
  0 <= received_count w' /\
  received_all_event w' = received_all_event w /\
  set_calls (trace w') = set_calls (trace w).
Proof.
  intros Hn Hc.
  destruct (handle_counts ev w) as (Hc' & Hg' & Hs'). simpl.
  rewrite Hc', Hg', Hs'.
  destruct (Z.eqb_spec (received_count w + 1) (count args)); [lia|].
  rewrite andb_false_r, orb_false_r, Nat.add_0_r.
  destruct (is_message ev && returned (handle ev w)); repeat split; lia.
Qed.

Lemma deliver_never_hits (evs : list event) :
  count args <= 0 ->
  forall w : world,
    0 <= received_count w ->
    let w' := world_of (deliver evs w) in
    0 <= received_count w' /\
    received_all_event w' = received_all_event w /\
    set_calls (trace w') = set_calls (trace w).
Proof.
  intros Hn. induction evs as [|ev evs IH]; intros w Hc; simpl.
  - repeat split; auto.
  - pose proof (handle_never_hits ev w Hn Hc) as (H1 & H2 & H3).
    destruct (IH _ H1) as (H4 & H5 & H6). simpl in *.
    repeat split; congruence.
Qed.

Lemma handle_trace_grows (ev : event) (w : world) :
  exists delta, trace (world_of (handle ev w)) = trace w ++ delta.
Proof.
  destruct (is_message ev) eqn:Hm.
  - destruct ev as [| | |topic payload]; try discriminate. simpl.
    rewrite on_message_received_eq.
    destruct (Utf8.decode payload) as [decoded|]; simpl;
      [|eexists; reflexivity].
    destruct (exec_switchbot decoded (state_repository w)) as [repo' [e|]];
      simpl; eexists; reflexivity.
  - destruct (handle_lifecycle ev w Hm) as (_ & _ & _ & delta & Ht & _).
    now exists delta.
Qed.

Lemma deliver_trace_grows (evs : list event) :
  forall w : world,
  exists delta, trace (world_of (deliver evs w)) = trace w ++ delta.
Proof.
  induction evs as [|ev evs IH]; intros w; simpl.
  - exists []. now rewrite app_nil_r.
  - destruct (handle_trace_grows ev w) as [d1 H1].
    destruct (IH (world_of (handle ev w))) as [d2 H2]. exists (d1 ++ d2).
    now rewrite H2, H1, app_assoc.
Qed.

Lemma deliver_gate_sticky (evs : list event) :
  forall w : world,
    received_all_event w = true ->
    received_all_event (world_of (deliver evs w)) = true.
Proof.
  induction evs as [|ev evs IH]; intros w Hg; simpl; [exact Hg|].
  apply IH. destruct (handle_counts ev w) as (_ & Hg' & _).
  now rewrite Hg', Hg.
Qed.

(** *** The main flow, unfolded *)

Lemma until_set_unset (evs : list event) :
  forall w : world,
    received_all_event (world_of (deliver evs w)) = false ->
    until_set evs w = ([], world_of (deliver evs w)).
Proof.
  induction evs as [|ev evs IH]; intros w H; simpl in *; [reflexivity|].
  destruct (received_all_event w) eqn:Hg.
  - pose proof (deliver_gate_sticky (ev :: evs) w Hg) as Hs.
    simpl in Hs. congruence.
  - now apply IH.
Qed.

Lemma until_set_spec (evs : list event) :
  forall w : world,
  exists pre,
    evs = pre ++ fst (until_set evs w) /\
    snd (until_set evs w) = world_of (deliver pre w) /\
    (received_all_event (snd (until_set evs w)) = true \/
     fst (until_set evs w) = []).
Proof.
  induction evs as [|ev evs IH]; intros w; simpl.
  - exists []. repeat split. now right.
  - destruct (received_all_event w) eqn:Hg; simpl.
    + exists []. repeat split. now left.
    + destruct (IH (world_of (handle ev w))) as (pre & He & Hw & Hs).
      exists (ev :: pre). simpl. rewrite <- He. repeat split; assumption.
Qed.

Lemma until_set_set (evs : list event) (w : world) :
  received_all_event (world_of (deliver evs w)) = true ->
  received_all_event (snd (until_set evs w)) = true.
Proof.
  intros H. destruct (until_set_spec evs w) as (pre & He & Hw & [Hs|Hs]);
    [exact Hs|].
  rewrite Hs, app_nil_r in He. subst pre. now rewrite Hw.
Qed.

Lemma main_eq (b : broker) (w : world) :
  main b w
  = match connect_answer b with
    | FutureException e => Raises e (extend w connecting)
    | FutureValue _ =>
      match subscribe_answer b with
      | FutureException e => Raises e (extend w (connecting ++ subscribing))
      | FutureValue granted =>
        let (late, w') :=
            until_set (deliveries b)
                      (extend w (connecting ++ subscribing ++
                                 [LogInfo (SubscribedWith granted); EventWait]))
        in
        if received_all_event w' then after_wait b late w' else Blocks w'
      end
    end.
Proof.
  unfold main, bind, future_get, logging_info, emit, bind, raise, ret. simpl.
  destruct (connect_answer b) as [sp|e].
  2:{ unfold extend, connecting. simpl. repeat rewrite <- app_assoc. reflexivity. }
  simpl. destruct (subscribe_answer b) as [granted|e].
  2:{ unfold extend, connecting, subscribing. simpl.
      repeat rewrite <- app_assoc. reflexivity. }
  simpl. unfold received_all_event_wait, bind, emit. simpl.
  unfold extend, connecting, subscribing. simpl.
  repeat rewrite <- app_assoc. simpl.
  match goal with
  | |- context [until_set ?evs ?w0] => destruct (until_set evs w0) as [late w']
  end.
  destruct (received_all_event w'); reflexivity.
Qed.

Lemma main_unset (b : broker) (sp : bool) (granted : QoS) (repo : Repo) :
  connect_answer b = FutureValue sp ->
  subscribe_answer b = FutureValue granted ->
  received_all_event (world_of (deliver (deliveries b) (waiting granted repo)))
  = false ->
  main b (initial repo)
  = Blocks (world_of (deliver (deliveries b) (waiting granted repo))).
Proof.
  intros Hc Hs Hg. rewrite main_eq, Hc, Hs.
  fold (waiting granted repo).
  rewrite (until_set_unset _ _ Hg). now rewrite Hg.
Qed.

Lemma main_never_hits (b : broker) (repo : Repo) :
  count args <= 0 ->
  let r := main b (initial repo) in
  received_all_event (world_of r) = false /\
  set_calls (trace (world_of r)) = 0%nat /\
  returned r = false.
Proof.
  intros Hn. simpl.
  destruct (connect_answer b) as [sp|e] eqn:Hc;
    [|rewrite main_eq, Hc; now repeat split].
  destruct (subscribe_answer b) as [granted|e] eqn:Hs;
    [|rewrite main_eq, Hc, Hs; now repeat split].
  pose proof (deliver_never_hits (deliveries b) Hn (waiting granted repo)
                                 (Z.le_refl 0)) as (_ & Hg & Hset).
  rewrite (main_unset b repo Hc Hs Hg). simpl. now repeat split.
Qed.

(** *** The termination gate *)

Lemma handled_total (evs : list event) :
  (forall decoded repo, snd (exec_switchbot decoded repo) = None) ->
  forall w : world, handled evs w = List.length (filter decodable evs).
Proof.
  intros Htotal.
  induction evs as [|ev evs IH]; intros w; simpl; [reflexivity|].
  rewrite IH.
  destruct ev as [error|rc sp|future res|topic payload]; simpl;
    try reflexivity.
  rewrite on_message_received_eq.
  destruct (Utf8.decode payload) as [decoded|]; simpl; [|reflexivity].
  pose proof (Htotal decoded (state_repository w)) as Hnone.
  destruct (exec_switchbot decoded (state_repository w)) as [repo' raised].
  simpl in Hnone. subst raised. reflexivity.
Qed.

(** C1.  For a target count N other than zero, in every run from the
    initial state, however the callbacks end: the counter is the number
    [n] of message-handler invocations that returned; the gate is set
    exactly when [n] has reached N, so after the N-th such invocation and
    after none before it; and [set()] has then been called exactly once,
    however many messages follow.  [n] is at most the number of messages
    delivered, and it is the number of messages whose payload decodes when
    the processor never raises. *)
Theorem gate_set_at_target (N : nat) (evs : list event) (repo : Repo) :
  N <> 0%nat ->
  count args = Z.of_nat N ->
  let run := deliver evs (initial repo) in
  let n := handled evs (initial repo) in
  received_count (world_of run) = Z.of_nat n /\
  received_all_event (world_of run) = (N <=? n)%nat /\
  set_calls (trace (world_of run)) = (if (N <=? n)%nat then 1%nat else 0%nat) /\
  (n <= message_count evs)%nat /\
  ((forall decoded repo', snd (exec_switchbot decoded repo') = None) ->
   n = List.length (filter decodable evs)).
Proof.
  intros HN Hcount run n.
  assert (Hinit : gate_tracks (initial repo)).
  { unfold gate_tracks. simpl.
    destruct (Z.leb_spec (count args) 0); [lia|now split]. }
  pose proof (deliver_gate_tracks evs Hinit) as [Hg Hs].
  pose proof (deliver_count evs (initial repo)) as Hc. simpl in Hc.
  fold run in Hg, Hs, Hc. fold n in Hc.
  assert (Hleb : (count args <=? received_count (world_of run))
                 = (N <=? n)%nat).
  { rewrite Hc, Hcount.
    destruct (Z.leb_spec (Z.of_nat N) (Z.of_nat n));
      destruct (Nat.leb_spec N n); try reflexivity; lia. }
  rewrite Hleb in Hg, Hs.
  split; [exact Hc|]. split; [exact Hg|]. split; [exact Hs|].
  split; [apply handled_le_messages|].
  intros Htotal. now apply handled_total.
Qed.

(** C2.  With a target count of zero the message handler never sets the
    gate, whatever is delivered: after any run the gate is unset and
    [set()] has not been called, and the main flow never gets past its
    wait. *)
Theorem gate_never_set_unbounded
        (evs : list event) (b : broker) (repo : Repo) :
  count args = 0 ->
  received_all_event (world_of (deliver evs (initial repo))) = false /\
  set_calls (trace (world_of (deliver evs (initial repo)))) = 0%nat /\
  received_all_event (world_of (main b (initial repo))) = false /\
  set_calls (trace (world_of (main b (initial repo)))) = 0%nat /\
  returned (main b (initial repo)) = false.
Proof.
  intros Hzero.
  assert (Hn : count args <= 0) by lia.
  destruct (deliver_never_hits evs Hn (initial repo) (Z.le_refl 0))
    as (_ & Hg & Hs).
  destruct (main_never_hits b repo Hn) as (Hg' & Hs' & Hr).
  repeat split; assumption.
Qed.

(** C10.  With a negative target count the message handler never sets the
    gate either: the counter starts at 0 and only grows, so the equality
    test never holds.  The run is not refused: once connected and
    subscribed the main flow waits, as with a target of zero, and never
    gets past the wait. *)
Theorem gate_never_set_negative
        (evs : list event) (b : broker) (repo : Repo) :
  count args < 0 ->
  received_all_event (world_of (deliver evs (initial repo))) = false /\
  set_calls (trace (world_of (deliver evs (initial repo)))) = 0%nat /\
  received_all_event (world_of (main b (initial repo))) = false /\
  returned (main b (initial repo)) = false /\
  (forall sp granted w',
      connect_answer b = FutureValue sp ->
      subscribe_answer b = FutureValue granted ->
      deliver (deliveries b)
              (extend (initial repo)
                      (connecting ++ subscribing ++
                       [LogInfo (SubscribedWith granted); EventWait]))
      = Returns tt w' ->
      main b (initial repo) = Blocks w').
Proof.
  intros Hneg.
  assert (Hn : count args <= 0) by lia.
  destruct (deliver_never_hits evs Hn (initial repo) (Z.le_refl 0))
    as (_ & Hg & Hs).
  destruct (main_never_hits b repo Hn) as (Hg' & Hs' & Hr).
  repeat split; try assumption.
  intros sp granted w' Hc Hsub Hrun.
  fold (waiting granted repo) in Hrun.
  pose proof (deliver_never_hits (deliveries b) Hn (waiting granted repo)
                                 (Z.le_refl 0)) as (_ & Hgw & _).
  rewrite (main_unset b repo Hc Hsub Hgw), Hrun. reflexivity.
Qed.

(** *** Recovery after an interruption *)

(** C3.  The resumed handler always returns.  It issues a resubscribe-all
    request exactly when the return code is ACCEPTED and no session is
    present.  In that case it issues exactly one, on a new future to which
    it attaches [on_resubscribe_complete], and it waits for nothing; in
    every other case it only logs the event. *)
Theorem resumed_resubscribes_iff
        (return_code : ConnectReturnCode) (session_present : bool) (w : world) :
  let w' := world_of (on_connection_resumed return_code session_present w) in
  let resumed := LogInfo (ConnectionResumed return_code session_present) in
  let future := List.length (futures w) in
  on_connection_resumed return_code session_present w = Returns tt w' /\
  (resubscribe_requests (trace w') <> resubscribe_requests (trace w)
   <-> return_code = ACCEPTED /\ session_present = false) /\
  (return_code = ACCEPTED /\ session_present = false ->
   exists delta,
     trace w' = trace w ++ delta /\
     delta = [ resumed; LogInfo SessionDidNotPersist;
               ResubscribeExistingTopics future;
               AddDoneCallback future cb_on_resubscribe_complete ] /\
     resubscribe_requests delta = 1%nat /\
     filter is_wait delta = [] /\
     futures w' = futures w ++ [Pending [cb_on_resubscribe_complete]] /\
     dispatcher_unchanged w w') /\
  (~ (return_code = ACCEPTED /\ session_present = false) ->
   w' = extend w [resumed]).
Proof.
  simpl. rewrite on_connection_resumed_eq. simpl.
  split; [reflexivity|].
  destruct return_code, session_present; simpl;
    rewrite ?resubscribe_requests_app; unfold resubscribe_requests; simpl;
    (split; [split; [intros H; try (exfalso; apply H; lia); now split
                    |intros [H1 H2]; try discriminate; lia]
            |split; [intros [H1 H2]; try discriminate
                    |intros H; try reflexivity; exfalso; now apply H]]).
  eexists. split; [reflexivity|].
  split; [reflexivity|]. split; [reflexivity|]. split; [reflexivity|].
  split; [reflexivity|].
  repeat split. eexists. split; reflexivity.
Qed.

Lemma first_rejected_in (results : resubscribe_results) (t : string) :
  first_rejected results = Some t -> rejected results t.
Proof.
  unfold rejected.
  induction results as [|[t' [q|]] rest IH]; simpl; intros H.
  - discriminate.
  - right. auto.
  - left. congruence.
Qed.

Lemma rejected_first (results : resubscribe_results) :
  (exists t, rejected results t) -> exists t, first_rejected results = Some t.
Proof.
  unfold rejected.
  intros [t H]. induction results as [|[t' [q|]] rest IH]; simpl in *.
  - contradiction.
  - destruct H as [H|H]; [discriminate|auto].
  - eauto.
Qed.

Lemma callbacks_of_fresh (cbs : list done_callback) (fs : list future_cell) :
  callbacks_of (List.length fs) (fs ++ [Pending cbs]) = cbs.
Proof.
  induction fs as [|f fs IH]; simpl; [reflexivity|].
  now destruct f.
Qed.

(** *** The message handler *)

(** C5.  For every inbound message the handler logs it and decodes the
    payload as UTF-8; a payload that does not decode ends it there, before
    any call to the processor.  Otherwise it calls the processor exactly
    once, with the decoded text and the state repository, and only when
    that call has returned does it add one to the counter: a call that
    raises leaves the counter and the gate as they were, a call that
    returns leaves the counter one higher, and nothing but a [set()] comes
    after the call. *)
Theorem message_decode_process_count
        (topic : string) (payload : bytes) (w : world) :
  let r := on_message_received topic payload w in
  let logged := LogInfo (ReceivedMessage topic payload) in
  match Utf8.decode payload with
  | None =>
    r = Raises UnicodeDecodeError (extend w [logged])
  | Some decoded =>
    state_repository (world_of r)
    = fst (exec_switchbot decoded (state_repository w)) /\
    processor_calls (trace (world_of r))
    = processor_calls (trace w) ++ [decoded] /\
    match snd (exec_switchbot decoded (state_repository w)) with
    | Some e =>
      r = Raises e (world_of r) /\
      trace (world_of r) = trace w ++ [logged; ExecSwitchbot decoded] /\
      received_count (world_of r) = received_count w /\
      received_all_event (world_of r) = received_all_event w
    | None =>
      r = Returns tt (world_of r) /\
      received_count (world_of r) = received_count w + 1 /\
      (trace (world_of r) = trace w ++ [logged; ExecSwitchbot decoded] \/
       trace (world_of r)
       = trace w ++ [logged; ExecSwitchbot decoded; EventSet])
    end
  end.
Proof.
  simpl. rewrite on_message_received_eq.
  destruct (Utf8.decode payload) as [decoded|]; [|reflexivity].
  destruct (exec_switchbot decoded (state_repository w)) as [repo' [e|]];
    simpl; rewrite !processor_calls_app; simpl.
  - repeat split.
  - destruct (received_count w + 1 =? count args); simpl;
      rewrite ?app_nil_r; repeat split; auto.
Qed.

(** C9.  A message whose payload does not decode, or on which the processor
    raises, makes the handler raise with the counter, the gate and the
    futures as they were and without a [set()] call. *)
Theorem failed_message_leaves_dispatcher
        (topic : string) (payload : bytes) (w : world) :
  (Utf8.decode payload = None \/
   exists decoded repo' e,
     Utf8.decode payload = Some decoded /\
     exec_switchbot decoded (state_repository w) = (repo', Some e)) ->
  exists e w',
    on_message_received topic payload w = Raises e w' /\
    received_count w' = received_count w /\
    received_all_event w' = received_all_event w /\
    set_calls (trace w') = set_calls (trace w) /\
    futures w' = futures w.
Proof.
  intros [Hdec|(decoded & repo' & e & Hdec & Hexec)];
    rewrite on_message_received_eq, Hdec; [|rewrite Hexec];
    eexists; eexists; (split; [reflexivity|]); simpl; solve_counts.
Qed.

Lemma deliver_messages_calls (ms : list (string * bytes)) :
  forall w : world,
    processor_calls (trace (world_of (deliver (messages ms) w)))
    = processor_calls (trace w) ++ decoded_payloads ms.
Proof.
  induction ms as [|[topic payload] ms IH]; intros w; simpl.
  - now rewrite app_nil_r.
  - rewrite IH, on_message_received_eq.
    destruct (Utf8.decode payload) as [decoded|]; simpl.
    + destruct (exec_switchbot decoded (state_repository w)) as [repo' [e|]];
        simpl; rewrite !processor_calls_app; simpl.
      * now rewrite <- app_assoc.
      * destruct (received_count w + 1 =? count args); simpl;
          rewrite ?app_nil_r, <- app_assoc; reflexivity.
    + rewrite processor_calls_app. simpl. now rewrite app_nil_r.
Qed.

(** C8.  Messages are processed in the order they are delivered.  Over a
    run of messages the processor is called with the decoded payloads of
    the messages, one call for each message whose payload decodes, in the
    order of delivery, whatever the calls before did; the run itself is
    the handler applied to the messages from first to last. *)
Theorem message_order_preserved (ms : list (string * bytes)) (w : world) :
  processor_calls (trace (world_of (deliver (messages ms) w)))
  = processor_calls (trace w) ++ decoded_payloads ms /\
  ((forall m, In m ms -> Utf8.decode (snd m) <> None) ->
   map (fun m => Utf8.decode (snd m)) ms = map Some (decoded_payloads ms)) /\
  deliver (messages ms) w
  = Returns tt
            (fold_left (fun w' m =>
                          world_of (on_message_received (fst m) (snd m) w'))
                       ms w).
Proof.
  split; [apply deliver_messages_calls|]. split.
  - induction ms as [|[topic payload] ms IH]; intros Hall; simpl;
      [reflexivity|].
    pose proof (Hall (topic, payload) (or_introl eq_refl)) as Hm.
    simpl in Hm.
    destruct (Utf8.decode payload) as [decoded|]; [|congruence].
    simpl. rewrite IH; [reflexivity|].
    intros m Hin. apply Hall. now right.
  - revert w. induction ms as [|[topic payload] ms IH]; intros w; simpl;
      [reflexivity|apply IH].
Qed.

(** *** Interruption *)

(** C6.  The interrupted handler logs the error and does nothing else: the
    world it leaves is the given one with the log entry appended.  After a
    cycle of interruption, resumption without session and a resubscribe
    answer that grants every topic, the counter, the gate and the store are
    as before, and a message that is then processed takes the counter from
    its old value to one more. *)
Theorem interrupted_only_logs (error : string) (w : world) :
  let w' := world_of (on_connection_interrupted error w) in
  on_connection_interrupted error w = Returns tt w' /\
  w' = extend w [LogError (ConnectionInterrupted error)] /\
  received_count w' = received_count w /\
  received_all_event w' = received_all_event w /\
  state_repository w' = state_repository w /\
  futures w' = futures w /\
  forall results,
    first_rejected results = None ->
    exists w1,
      deliver [ Interrupted error;
                Resumed ACCEPTED false;
                ResubscribeDone (List.length (futures w))
                                (FutureValue results) ] w
      = Returns tt w1 /\
      dispatcher_unchanged w w1 /\
      forall topic payload decoded repo',
        Utf8.decode payload = Some decoded ->
        exec_switchbot decoded (state_repository w) = (repo', None) ->
        exists w2,
          on_message_received topic payload w1 = Returns tt w2 /\
          received_count w2 = received_count w + 1.
Proof.
  cbv zeta.
  split; [reflexivity|]. split; [reflexivity|]. split; [reflexivity|].
  split; [reflexivity|]. split; [reflexivity|]. split; [reflexivity|].
  intros results Hgranted.
  set (cycle := [ Interrupted error; Resumed ACCEPTED false;
                  ResubscribeDone (List.length (futures w))
                                  (FutureValue results) ]).
  exists (world_of (deliver cycle w)).
  assert (Hsame : dispatcher_unchanged w (world_of (deliver cycle w)))
    by exact (@deliver_lifecycle cycle eq_refl w).
  split; [apply deliver_returns|]. split; [exact Hsame|].
  intros topic payload decoded repo' Hdec Hexec.
  destruct Hsame as (Hc & Hg & Hr & _).
  rewrite on_message_received_eq, Hdec, Hr, Hexec.
  eexists. split; [reflexivity|].
  change (received_count (world_of (deliver cycle w)) + 1
          = received_count w + 1).
  now rewrite Hc.
Qed.

(** *** Setup *)

(** C7.  When the connect future holds an error, the main flow ends with
    that error right after asking for the result: the exit status is 1, and
    no subscribe request has been made. *)
Theorem connect_rejected_exits (b : broker) (e : exn) (repo : Repo) :
  connect_answer b = FutureException e ->
  main b (initial repo) = Raises e (extend (initial repo) connecting) /\
  exit_status (main b (initial repo)) = Some 1 /\
  filter is_subscribe (trace (world_of (main b (initial repo)))) = [] /\
  trace (world_of (main b (initial repo))) = connecting.
Proof.
  intros Hc. rewrite main_eq, Hc. repeat split.
Qed.

(** *** Runs from any state *)

(** X1.  Whatever is delivered, from whatever state, the counter never goes
    down, a gate that is set stays set, [set()] calls are never taken back
    and the trace is only added to. *)
Theorem run_only_grows (evs : list event) (w : world) :
  let w' := world_of (deliver evs w) in
  received_count w <= received_count w' /\
  (received_count w' <= received_count w + Z.of_nat (message_count evs)) /\
  (received_all_event w = true -> received_all_event w' = true) /\
  (set_calls (trace w) <= set_calls (trace w'))%nat /\
  exists delta, trace w' = trace w ++ delta.
Proof.
  simpl.
  pose proof (deliver_count evs w) as Hc.
  pose proof (handled_le_messages evs w) as Hle.
  destruct (deliver_trace_grows evs w) as [delta Ht].
  split; [lia|]. split; [lia|].
  split; [apply deliver_gate_sticky|].
  split; [|now exists delta].
  rewrite Ht, set_calls_app. lia.
Qed.

(** X2.  From any state the message handler sets the gate by an equality
    test, so a run sets it exactly when the counter passes from below the
    target to it: then with one [set()] call, otherwise with none.  In
    particular a counter already at or past the target never sets it. *)
Theorem gate_set_on_crossing (evs : list event) (w : world) :
  let w' := world_of (deliver evs w) in
  let crossed := (received_count w <? count args)
                 && (count args <=? received_count w') in
  received_all_event w' = received_all_event w || crossed /\
  set_calls (trace w')
  = (set_calls (trace w) + (if crossed then 1 else 0))%nat.
Proof.
  simpl. revert w.
  induction evs as [|ev evs IH]; intros w; simpl.
  - destruct (Z.ltb_spec (received_count w) (count args));
      destruct (Z.leb_spec (count args) (received_count w)); simpl;
        try lia; rewrite orb_false_r; (split; [reflexivity|lia]).
  - destruct (handle_counts ev w) as (Hc & Hg & Hs).
    destruct (IH (world_of (handle ev w))) as [Hg2 Hs2].
    pose proof (deliver_count evs (world_of (handle ev w))) as Hm.
    rewrite Hg2, Hs2, Hg, Hs, Hc. rewrite Hc in Hm. revert Hm. clear.
    set (n := received_count w).
    set (m := received_count
                (world_of (deliver evs (world_of (handle ev w))))).
    intros Hm.
    destruct (is_message ev && returned (handle ev w)); simpl in *;
      destruct (Z.eqb_spec (n + 1) (count args));
      destruct (Z.ltb_spec n (count args));
      destruct (Z.ltb_spec (n + 1) (count args));
      destruct (Z.ltb_spec (n + 0) (count args));
      destruct (Z.leb_spec (count args) m);
      simpl; try lia;
      rewrite ?orb_false_r, ?orb_true_r; (split; [reflexivity|lia]).
Qed.

(** *** Processor calls, counter and store *)

Lemma handle_calls (ev : event) (w : world) :
  let r := handle ev w in
  exists texts,
    processor_calls (trace (world_of r)) = processor_calls (trace w) ++ texts /\
    state_repository (world_of r) = run_store texts (state_repository w) /\
    List.length texts = (if decodable ev then 1%nat else 0%nat) /\
    (is_message ev && returned r = true -> decodable ev = true).
Proof.
  destruct (is_message ev) eqn:Hm.
  - destruct ev as [| | |topic payload]; try discriminate. simpl.
    rewrite on_message_received_eq.
    destruct (Utf8.decode payload) as [decoded|]; simpl.
    + destruct (exec_switchbot decoded (state_repository w))
        as [repo' [e|]] eqn:Hexec; simpl;
        exists [decoded]; unfold run_store; simpl; rewrite Hexec;
          rewrite !processor_calls_app; simpl.
      * repeat split; auto.
      * destruct (received_count w + 1 =? count args); simpl;
          rewrite ?app_nil_r; repeat split; auto.
    + exists []. rewrite processor_calls_app, app_nil_r. simpl.
      rewrite app_nil_r. repeat split; auto.
  - simpl. pose proof (handle_lifecycle ev w Hm) as H.
    pose proof (dispatcher_unchanged_calls H) as Hcalls.
    destruct H as (_ & _ & Hr & _).
    exists []. rewrite app_nil_r.
    destruct ev; try discriminate; repeat split; auto; discriminate.
Qed.

Lemma run_store_app (a b : list text) (repo : Repo) :
  run_store (a ++ b) repo = run_store b (run_store a repo).
Proof. apply fold_left_app. Qed.

Lemma deliver_calls (evs : list event) :
  forall w : world,
    let w' := world_of (deliver evs w) in
    exists texts,
      processor_calls (trace w') = processor_calls (trace w) ++ texts /\
      state_repository w' = run_store texts (state_repository w) /\
      List.length texts = List.length (filter decodable evs) /\
      (handled evs w <= List.length texts)%nat.
Proof.
  induction evs as [|ev evs IH]; intros w; simpl.
  - exists []. rewrite app_nil_r. simpl. repeat split; lia.
  - destruct (handle_calls ev w) as (t1 & Hc1 & Hs1 & Hl1 & Hd1).
    destruct (IH (world_of (handle ev w))) as (t2 & Hc2 & Hs2 & Hl2 & Hh2).
    exists (t1 ++ t2).
    rewrite Hc2, Hc1, Hs2, Hs1, run_store_app, app_assoc, !length_app, Hl1, Hl2.
    split; [reflexivity|]. split; [reflexivity|].
    simpl in Hd1.
    destruct (is_message ev && returned (handle ev w)).
    + rewrite (Hd1 eq_refl). simpl. split; lia.
    + destruct (decodable ev); simpl; split; lia.
Qed.


(** X4.  The store is handed from one message to the next: after any run
    it is the store the processor leaves when called, starting from the
    store of the given state, with the texts the run passed to it, in the
    order of the calls. *)
Theorem store_follows_processor (evs : list event) (w : world) :
  let w' := world_of (deliver evs w) in
  exists texts,
    processor_calls (trace w') = processor_calls (trace w) ++ texts /\
    state_repository w' = run_store texts (state_repository w).
Proof.
  simpl.
  destruct (deliver_calls evs w) as (texts & Hc & Hs & _).
  now exists texts.
Qed.

(** X5.  Events other than messages, whatever they are and however they
    end (a refused topic and a failed future included), never call the
    processor, never move the counter and never touch the gate or the
    store. *)
Theorem lifecycle_events_frame (evs : list event) (w : world) :
  forallb (fun ev => negb (is_message ev)) evs = true ->
  let w' := world_of (deliver evs w) in
  received_count w' = received_count w /\
  received_all_event w' = received_all_event w /\
  state_repository w' = state_repository w /\
  processor_calls (trace w') = processor_calls (trace w) /\
  set_calls (trace w') = set_calls (trace w).
Proof.
  intros Hevs. simpl.
  pose proof (deliver_lifecycle evs Hevs w) as H.
  pose proof (dispatcher_unchanged_calls H) as Hcalls.
  pose proof (dispatcher_unchanged_set_calls H) as Hset.
  destruct H as (Hc & Hg & Hr & _).
  repeat split; assumption.
Qed.

(** X6.  The handler does not look at the topic: the same payload delivered
    under two topics ends the same way, with the same counter, gate, store
    and futures, and the two traces differ only in the topic of the log
    entry. *)
Theorem topic_only_logged (topic1 topic2 : string) (payload : bytes) (w : world) :
  let r1 := on_message_received topic1 payload w in
  let r2 := on_message_received topic2 payload w in
  returned r1 = returned r2 /\
  exit_status r1 = exit_status r2 /\
  received_count (world_of r1) = received_count (world_of r2) /\
  received_all_event (world_of r1) = received_all_event (world_of r2) /\
  state_repository (world_of r1) = state_repository (world_of r2) /\
  futures (world_of r1) = futures (world_of r2) /\
  exists rest,
    trace (world_of r1)
    = trace w ++ LogInfo (ReceivedMessage topic1 payload) :: rest /\
    trace (world_of r2)
    = trace w ++ LogInfo (ReceivedMessage topic2 payload) :: rest.
Proof.
  simpl. rewrite !on_message_received_eq.
  destruct (Utf8.decode payload) as [decoded|]; simpl.
  - destruct (exec_switchbot decoded (state_repository w)) as [repo' [e|]];
      simpl; repeat split; eexists; split; reflexivity.
  - repeat split. exists []. split; reflexivity.
Qed.

Lemma decode_ascii (payload : bytes) :
  forallb (fun b => (Byte.to_N b <? 0x80)%N) payload = true ->
  Utf8.decode payload = Some (map Byte.to_N payload).
Proof.
  induction payload as [|b payload IH]; intros H; [reflexivity|].
  cbn [forallb] in H. apply andb_prop in H. destruct H as [Hb Hrest].
  cbn [Utf8.decode map]. rewrite Hb, (IH Hrest). reflexivity.
Qed.

(** X7.  A payload of ASCII bytes always decodes, to the same characters:
    the handler never fails on it before the processor is called, and calls
    the processor with exactly those characters. *)
Theorem ascii_payload_reaches_processor
        (topic : string) (payload : bytes) (w : world) :
  forallb (fun b => (Byte.to_N b <? 0x80)%N) payload = true ->
  let r := on_message_received topic payload w in
  Utf8.decode payload = Some (map Byte.to_N payload) /\
  processor_calls (trace (world_of r))
  = processor_calls (trace w) ++ [map Byte.to_N payload] /\
  state_repository (world_of r)
  = fst (exec_switchbot (map Byte.to_N payload) (state_repository w)) /\
  (returned r = true <->
   snd (exec_switchbot (map Byte.to_N payload) (state_repository w)) = None).
Proof.
  intros Hascii. simpl.
  pose proof (decode_ascii payload Hascii) as Hdec.
  split; [exact Hdec|].
  rewrite on_message_received_eq, Hdec.
  destruct (exec_switchbot (map Byte.to_N payload) (state_repository w))
    as [repo' [e|]]; simpl; rewrite !processor_calls_app; simpl.
  - repeat split; discriminate.
  - destruct (received_count w + 1 =? count args); simpl;
      rewrite ?app_nil_r; repeat split.
Qed.

(** *** The resubscribe result *)

Lemma first_rejected_split (results : resubscribe_results) (t : string) :
  first_rejected results = Some t ->
  exists granted rest,
    results = granted ++ (t, None) :: rest /\
    first_rejected granted = None.
Proof.
  induction results as [|[t' [q|]] results IH]; simpl; intros H.
  - discriminate.
  - destruct (IH H) as (granted & rest & Hr & Hg).
    exists ((t', Some q) :: granted), rest. simpl. now rewrite Hr.
  - injection H as ->. now exists [], results.
Qed.

Lemma first_rejected_none (results : resubscribe_results) :
  first_rejected results = None <-> forall t, ~ rejected results t.
Proof.
  split.
  - intros Hn t Hr.
    destruct (rejected_first results (ex_intro _ t Hr)) as [t' Ht'].
    congruence.
  - intros H. destruct (first_rejected results) as [t|] eqn:Ht; [|reflexivity].
    exfalso. apply (H t). now apply first_rejected_in.
Qed.

(** X8.  [on_resubscribe_complete], given a result, returns exactly when no
    topic was rejected.  Otherwise it exits naming the first rejected topic
    of the list: every topic before it was granted, and what comes after
    it, rejected or not, is not looked at. *)
Theorem resubscribe_exit_names_first_rejected
        (results : resubscribe_results) (w : world) :
  let r := on_resubscribe_complete (FutureValue results) w in
  let logged := extend w [FutureResult; LogInfo (ResubscribeResults results)] in
  (returned r = true <-> forall t, ~ rejected results t) /\
  (returned r = true -> r = Returns tt logged) /\
  (returned r = false ->
   exists t granted rest,
     results = granted ++ (t, None) :: rest /\
     (forall t', ~ rejected granted t') /\
     r = Raises (SystemExit
                   (String.append "Server rejected resubscribe to topic: " t))
                logged).
Proof.
  simpl. rewrite on_resubscribe_complete_eq. cbv zeta.
  destruct (first_rejected results) as [t|] eqn:Ht; simpl.
  - split; [|split].
    + split; [discriminate|]. intros H. exfalso.
      apply (H t). now apply first_rejected_in.
    + discriminate.
    + intros _. destruct (first_rejected_split _ Ht) as (granted & rest & Hr & Hg).
      exists t, granted, rest.
      split; [exact Hr|]. split; [now apply first_rejected_none|reflexivity].
  - split; [|split].
    + split; [intros _; now apply first_rejected_none|reflexivity].
    + reflexivity.
    + discriminate.
Qed.

(** X9.  When the resubscribe future holds an exception instead of a
    result, [on_resubscribe_complete] raises that exception from
    [result()]: nothing is logged, no topic is examined, [sys.exit] is not
    called, and the counter, the gate and the store are untouched.  The
    exception stays with the completed future: the events that follow are
    handled as usual. *)
Theorem failed_resubscribe_future_raises (e : exn) (w : world) :
  let r := on_resubscribe_complete (FutureException e) w in
  r = Raises e (world_of r) /\
  trace (world_of r) = trace w ++ [FutureResult] /\
  received_count (world_of r) = received_count w /\
  received_all_event (world_of r) = received_all_event w /\
  state_repository (world_of r) = state_repository w /\
  futures (world_of r) = futures w /\
  forall (future : nat) (rest : list event),
    callbacks_of future (futures w) = [cb_on_resubscribe_complete] ->
    deliver (ResubscribeDone future (FutureException e) :: rest) w
    = deliver rest
              {| received_count := received_count w;
                 received_all_event := received_all_event w;
                 state_repository := state_repository w;
                 futures := mark_done future (futures w);
                 trace := trace w ++ [FutureResult] |}.
Proof.
  simpl. rewrite on_resubscribe_complete_eq. simpl.
  repeat split.
  intros future rest Hcb. cbn [deliver handle]. unfold bind, complete_future.
  rewrite Hcb. cbn [invoke_callbacks call_done_callback].
  rewrite on_resubscribe_complete_eq. simpl.
  destruct (is_exception e); reflexivity.
Qed.

(** *** Requests and futures *)

Lemma invoke_callbacks_futures
      (cbs : list done_callback) (res : future_result resubscribe_results) :
  forall w : world,
    let w' := world_of (invoke_callbacks cbs res w) in
    futures w' = futures w /\
    exists delta,
      trace w' = trace w ++ delta /\
      forallb (fun e => negb (is_resubscribe e) && negb (is_main_call e)) delta
      = true.
Proof.
  induction cbs as [|cb cbs IH]; intros w; simpl.
  - split; [reflexivity|]. exists []. now rewrite app_nil_r.
  - destruct cb; simpl.
    rewrite on_resubscribe_complete_eq.
    assert (Hnext : forall d : list effect,
               forallb (fun e => negb (is_resubscribe e)
                                 && negb (is_main_call e)) d = true ->
               let w' := world_of (invoke_callbacks cbs res (extend w d)) in
               futures w' = futures w /\
               exists delta,
                 trace w' = trace w ++ delta /\
                 forallb (fun e => negb (is_resubscribe e)
                                   && negb (is_main_call e)) delta = true).
    { intros d Hd. destruct (IH (extend w d)) as (Hf & d2 & Ht & Hq).
      simpl in *. split; [exact Hf|].
      exists (d ++ d2). rewrite Ht, <- app_assoc, forallb_app, Hd, Hq.
      now split. }
    destruct res as [results|e]; simpl.
    + destruct (first_rejected results); simpl.
      * split; [reflexivity|]. eexists. split; reflexivity.
      * now apply Hnext.
    + destruct (is_exception e); simpl.
      * now apply Hnext.
      * split; [reflexivity|]. eexists. split; reflexivity.
Qed.

Lemma mark_done_ok (future : nat) (fs : list future_cell) :
  forallb future_ok fs = true ->
  forallb future_ok (mark_done future fs) = true /\
  List.length (mark_done future fs) = List.length fs.
Proof.
  revert future. induction fs as [|f fs IH]; intros future H; simpl in *.
  - destruct future; now split.
  - apply andb_prop in H. destruct H as [Hf Hfs].
    destruct future as [|n]; simpl.
    + now rewrite Hfs.
    + destruct (IH n Hfs) as [H1 H2]. now rewrite Hf, H1, H2.
Qed.

(** What every event keeps, and what it adds to the trace. *)
Lemma handle_requests (ev : event) (w : world) :
  forallb future_ok (futures w) = true ->
  List.length (futures w) = resubscribe_requests (trace w) ->
  let w' := world_of (handle ev w) in
  forallb future_ok (futures w') = true /\
  List.length (futures w') = resubscribe_requests (trace w') /\
  resubscribe_requests (trace w')
  = (resubscribe_requests (trace w)
     + if is_fresh_resume ev then 1 else 0)%nat /\
  exists delta,
    trace w' = trace w ++ delta /\
    forallb (fun e => negb (is_main_call e)) delta = true.
Proof.
  intros Hok Hlen.
  destruct ev as [error|rc sp|future res|topic payload]; simpl.
  - rewrite resubscribe_requests_app. unfold resubscribe_requests at 2 4.
    simpl. rewrite Hok, Hlen.
    repeat split; try lia. eexists. split; reflexivity.
  - rewrite on_connection_resumed_eq. simpl.
    destruct (return_code_eqb rc ACCEPTED && negb sp); simpl;
      rewrite resubscribe_requests_app; unfold resubscribe_requests at 2 4;
        simpl.
    + rewrite forallb_app, Hok, length_app, Hlen. simpl.
      repeat split; try lia. eexists. split; reflexivity.
    + rewrite Hok, Hlen. repeat split; try lia.
      eexists. split; reflexivity.
  - unfold bind, complete_future.
    destruct (mark_done_ok future _ Hok) as [Hok' Hlen'].
    match goal with
    | |- context [invoke_callbacks ?cbs res ?w1] =>
      destruct (invoke_callbacks_futures cbs res w1) as (Hf & d & Ht & Hq)
    end.
    simpl in *. rewrite Hf, Ht, resubscribe_requests_app.
    assert (Hd : resubscribe_requests d = 0%nat /\
                 forallb (fun e => negb (is_main_call e)) d = true).
    { clear - Hq. unfold resubscribe_requests.
      induction d as [|e d IH]; simpl in *; [now split|].
      apply andb_prop in Hq. destruct Hq as [He Hd].
      apply andb_prop in He. destruct He as [He1 He2].
      destruct (IH Hd) as [IH1 IH2].
      apply negb_true_iff in He1. rewrite He1, He2. now split. }
    destruct Hd as [Hd1 Hd2]. rewrite Hd1, Hok', Hlen', Hlen.
    repeat split; try lia. now exists d.
  - rewrite on_message_received_eq.
    destruct (Utf8.decode payload) as [decoded|]; simpl.
    + destruct (exec_switchbot decoded (state_repository w)) as [repo' [e|]];
        simpl.
      * rewrite resubscribe_requests_app. unfold resubscribe_requests at 2 4.
        simpl. rewrite Hok, Hlen. repeat split; try lia.
        eexists. split; reflexivity.
      * rewrite resubscribe_requests_app. unfold resubscribe_requests at 2 4.
        destruct (received_count w + 1 =? count args); simpl;
          rewrite Hok, Hlen; repeat split; try lia;
            eexists; (split; [reflexivity|reflexivity]).
    + rewrite resubscribe_requests_app. unfold resubscribe_requests at 2 4.
      simpl. rewrite Hok, Hlen. repeat split; try lia.
      eexists. split; reflexivity.
Qed.

Lemma deliver_requests (evs : list event) :
  forall w : world,
    forallb future_ok (futures w) = true ->
    List.length (futures w) = resubscribe_requests (trace w) ->
    let w' := world_of (deliver evs w) in
    forallb future_ok (futures w') = true /\
    List.length (futures w') = resubscribe_requests (trace w') /\
    resubscribe_requests (trace w')
    = (resubscribe_requests (trace w)
       + List.length (filter is_fresh_resume evs))%nat.
Proof.
  induction evs as [|ev evs IH]; intros w Hok Hlen; simpl.
  - repeat split; auto; lia.
  - destruct (handle_requests ev w Hok Hlen) as (Hok1 & Hlen1 & Hreq1 & _).
    destruct (IH _ Hok1 Hlen1) as (Hok2 & Hlen2 & Hreq2).
    simpl in *. rewrite Hreq2, Hreq1.
    destruct (is_fresh_resume ev); simpl; repeat split; auto; lia.
Qed.

(** X10.  Every resubscribe request has its future and its callback.  After
    any run from the initial state there are as many futures as requests
    made, each one done or pending with [on_resubscribe_complete] attached
    exactly once; requests are made only by resumptions that are accepted
    without a session, one each. *)
Theorem every_request_has_its_callback (evs : list event) (repo : Repo) :
  let r := deliver evs (initial repo) in
  let fresh := List.length (filter is_fresh_resume evs) in
  forallb future_ok (futures (world_of r)) = true /\
  List.length (futures (world_of r))
  = resubscribe_requests (trace (world_of r)) /\
  (resubscribe_requests (trace (world_of r)) <= fresh)%nat /\
  (returned r = true -> resubscribe_requests (trace (world_of r)) = fresh).
Proof.
  simpl.
  destruct (deliver_requests evs (initial repo) eq_refl eq_refl)
    as (Hok & Hlen & Heq).
  simpl in *. repeat split; auto; lia.
Qed.

Lemma handle_callback_effects (ev : event) (w : world) :
  exists delta,
    trace (world_of (handle ev w)) = trace w ++ delta /\
    forallb (fun e => negb (is_main_call e)) delta = true.
Proof.
  destruct ev as [error|rc sp|future res|topic payload]; simpl.
  - eexists. split; reflexivity.
  - rewrite on_connection_resumed_eq. simpl.
    destruct (return_code_eqb rc ACCEPTED && negb sp); simpl;
      eexists; split; reflexivity.
  - unfold bind, complete_future.
    match goal with
    | |- context [invoke_callbacks ?cbs res ?w1] =>
      destruct (invoke_callbacks_futures cbs res w1) as (_ & d & Ht & Hq)
    end.
    simpl in *. exists d. split; [exact Ht|].
    clear - Hq. induction d as [|e d IH]; simpl in *; [reflexivity|].
    apply andb_prop in Hq. destruct Hq as [He Hd].
    apply andb_prop in He. destruct He as [_ He]. now rewrite He, IH.
  - rewrite on_message_received_eq.
    destruct (Utf8.decode payload) as [decoded|]; simpl;
      [|eexists; split; reflexivity].
    destruct (exec_switchbot decoded (state_repository w)) as [repo' [e|]];
      simpl; [eexists; split; reflexivity|].
    eexists. split; [reflexivity|].
    now destruct (received_count w + 1 =? count args).
Qed.

Lemma deliver_callback_effects (evs : list event) :
  forall w : world,
  exists delta,
    trace (world_of (deliver evs w)) = trace w ++ delta /\
    forallb (fun e => negb (is_main_call e)) delta = true.
Proof.
  induction evs as [|ev evs IH]; intros w; simpl.
  - exists []. now rewrite app_nil_r.
  - destruct (handle_callback_effects ev w) as (d1 & H1 & Hq1).
    destruct (IH (world_of (handle ev w))) as (d2 & H2 & Hq2).
    exists (d1 ++ d2).
    now rewrite H2, H1, app_assoc, forallb_app, Hq1, Hq2.
Qed.

Lemma deliver_no_disconnect (evs : list event) (w : world) :
  exists delta,
    trace (world_of (deliver evs w)) = trace w ++ delta /\
    filter is_disconnect delta = [] /\
    filter is_subscribe delta = [].
Proof.
  destruct (deliver_callback_effects evs w) as (delta & Ht & Hq).
  exists delta. split; [exact Ht|].
  clear Ht. induction delta as [|e delta IH]; simpl in *; [now split|].
  apply andb_prop in Hq. destruct Hq as [He Hd].
  destruct (IH Hd) as [IH1 IH2].
  destruct e; simpl in *; try discriminate; now split.
Qed.

(** X11.  The callbacks leave the connection to the main flow: whatever is
    delivered, from whatever state, no callback builds a connection,
    connects, subscribes, disconnects or waits on the gate. *)
Theorem callbacks_make_no_main_call (evs : list event) (w : world) :
  exists delta,
    trace (world_of (deliver evs w)) = trace w ++ delta /\
    forallb (fun e => negb (is_main_call e)) delta = true /\
    filter is_disconnect delta = [] /\
    filter is_subscribe delta = [].
Proof.
  destruct (deliver_callback_effects evs w) as (delta & Ht & Hq).
  exists delta. split; [exact Ht|]. split; [exact Hq|].
  clear Ht. induction delta as [|e delta IH]; simpl in *; [now split|].
  apply andb_prop in Hq. destruct Hq as [He Hd].
  destruct (IH Hd) as [IH1 IH2].
  destruct e; simpl in *; try discriminate; now split.
Qed.

(** *** The main flow *)

Lemma waiting_gate_tracks (granted : QoS) (repo : Repo) :
  0 < count args -> gate_tracks (waiting granted repo).
Proof.
  intros Hpos. unfold gate_tracks. simpl.
  destruct (Z.leb_spec (count args) 0); [lia|now split].
Qed.

Lemma no_disconnect_app (a b : list effect) :
  filter is_disconnect a = [] -> filter is_disconnect b = [] ->
  filter is_disconnect (a ++ b) = [].
Proof. intros Ha Hb. now rewrite filter_app, Ha, Hb. Qed.


Lemma message_count_app (a b : list event) :
  message_count (a ++ b) = (message_count a + message_count b)%nat.
Proof. unfold message_count. now rewrite filter_app, length_app. Qed.

Lemma deliver_bound (evs : list event) (w : world) :
  received_count w <= received_count (world_of (deliver evs w))
  <= received_count w + Z.of_nat (message_count evs).
Proof.
  pose proof (deliver_count evs w).
  pose proof (handled_le_messages evs w). lia.
Qed.

Lemma deliver_disconnects (evs : list event) (w : world) :
  filter is_disconnect (trace (world_of (deliver evs w)))
  = filter is_disconnect (trace w).
Proof.
  destruct (deliver_no_disconnect evs w) as (delta & Ht & Hd & _).
  now rewrite Ht, filter_app, Hd, app_nil_r.
Qed.

Lemma deliver_keeps (evs : list event) (w : world) (e : effect) :
  In e (trace w) -> In e (trace (world_of (deliver evs w))).
Proof.
  intros H. destruct (deliver_trace_grows evs w) as [delta Ht].
  rewrite Ht. apply in_or_app. now left.
Qed.

Lemma gate_tracks_set (w : world) :
  gate_tracks w ->
  received_all_event w = true ->
  count args <= received_count w /\ set_calls (trace w) = 1%nat.
Proof.
  intros [Hg Hs] Hset. rewrite Hset in Hg. symmetry in Hg.
  rewrite Hg in Hs. apply Z.leb_le in Hg. now split.
Qed.

Lemma gate_tracks_reached (w : world) :
  gate_tracks w ->
  count args <= received_count w ->
  received_all_event w = true /\ set_calls (trace w) = 1%nat.
Proof.
  intros [Hg Hs] Hle. apply Z.leb_le in Hle. rewrite Hle in Hg, Hs.
  now split.
Qed.

Lemma on_track_race (bound : Z) (d k : nat) (late : list event) (w : world) :
  on_track bound d late w ->
  on_track bound d (skipn k late) (world_of (deliver (firstn k late) w)).
Proof.
  intros (Hg & Hc & Hb & Hd).
  pose proof (deliver_bound (firstn k late) w) as Hn.
  pose proof (message_count_app (firstn k late) (skipn k late)) as Hm.
  rewrite firstn_skipn in Hm.
  split; [now apply deliver_gate_tracks|].
  split; [lia|]. split; [lia|].
  now rewrite deliver_disconnects.
Qed.

Lemma on_track_extend
      (bound : Z) (d : nat) (late : list event) (w : world)
      (delta : list effect) :
  filter is_event_set delta = [] ->
  on_track bound d late w ->
  on_track bound (d + List.length (filter is_disconnect delta)) late
           (extend w delta).
Proof.
  intros Hq ((Hg & Hs) & Hc & Hb & Hd).
  unfold on_track, gate_tracks. simpl.
  rewrite set_calls_app, filter_app, length_app, Hd.
  unfold set_calls at 2. rewrite Hq. simpl.
  rewrite Nat.add_0_r. repeat split; assumption.
Qed.

Lemma wake_on_track
      (b : broker) (granted : QoS) (repo : Repo)
      (late : list event) (w : world) :
  0 < count args ->
  until_set (deliveries b) (waiting granted repo) = (late, w) ->
  received_all_event w = true ->
  on_track (Z.of_nat (message_count (deliveries b))) 0 late w.
Proof.
  intros Hpos Hu Hset.
  destruct (until_set_spec (deliveries b) (waiting granted repo))
    as (pre & He & Hw & _).
  rewrite Hu in He, Hw. simpl in He, Hw.
  pose proof (deliver_gate_tracks pre (waiting_gate_tracks granted repo Hpos))
    as Hg.
  pose proof (deliver_bound pre (waiting granted repo)) as Hn.
  pose proof (deliver_disconnects pre (waiting granted repo)) as Hd.
  rewrite <- Hw in Hg, Hn, Hd.
  destruct (gate_tracks_set Hg Hset) as [Hc _].
  rewrite He, message_count_app. simpl in Hn.
  split; [exact Hg|]. split; [exact Hc|]. split; [lia|].
  rewrite Hd. reflexivity.
Qed.

Lemma after_wait_on_track
      (b : broker) (bound : Z) (late : list event) (w : world) :
  on_track bound 0 late w ->
  exists w' n,
    after_wait b late w
    = match disconnect_answer b with
      | FutureValue _ => Returns tt (extend w' [LogInfo Disconnected])
      | FutureException e => Raises e w'
      end /\
    gate_tracks w' /\
    count args <= received_count w' <= bound /\
    List.length (filter is_disconnect (trace w')) = 1%nat /\
    In (LogInfo (MessagesReceived n)) (trace w') /\
    count args <= n <= received_count w'.
Proof.
  intros H0.
  set (k1 := before_count (overlap b)).
  set (k2 := before_disconnecting (overlap b)).
  set (k3 := before_disconnect (overlap b)).
  set (k4 := before_disconnected (overlap b)).
  set (late1 := skipn k1 late).
  set (w1 := world_of (deliver (firstn k1 late) w)).
  set (n := received_count w1).
  set (w2 := extend w1 [LogInfo (MessagesReceived n)]).
  set (late2 := skipn k2 late1).
  set (w3 := world_of (deliver (firstn k2 late1) w2)).
  set (w4 := extend w3 [LogInfo Disconnecting]).
  set (late3 := skipn k3 late2).
  set (w5 := world_of (deliver (firstn k3 late2) w4)).
  set (w6 := extend w5 [Disconnect]).
  set (w7 := world_of (deliver (firstn k4 late3) w6)).
  set (w8 := extend w7 [FutureResult]).
  assert (H1 : on_track bound 0 late1 w1) by now apply on_track_race.
  assert (H2 : on_track bound 0 late1 w2)
    by exact (on_track_extend [LogInfo (MessagesReceived n)] eq_refl H1).
  assert (H3 : on_track bound 0 late2 w3) by now apply on_track_race.
  assert (H4 : on_track bound 0 late2 w4)
    by exact (on_track_extend [LogInfo Disconnecting] eq_refl H3).
  assert (H5 : on_track bound 0 late3 w5) by now apply on_track_race.
  assert (H6 : on_track bound 1 late3 w6)
    by exact (on_track_extend [Disconnect] eq_refl H5).
  assert (H7 : on_track bound 1 (skipn k4 late3) w7)
    by now apply on_track_race.
  assert (H8 : on_track bound 1 (skipn k4 late3) w8)
    by exact (on_track_extend [FutureResult] eq_refl H7).
  exists w8, n.
  split.
  { unfold after_wait, bind, race_on, read_received_count, logging_info,
      future_get, bind, emit, raise, ret.
    destruct (disconnect_answer b) as [[]|e]; reflexivity. }
  destruct H8 as (Hg & Hc & Hb & Hd).
  split; [exact Hg|]. split; [lia|]. split; [exact Hd|].
  split.
  { unfold w8. simpl. apply in_or_app. left.
    apply deliver_keeps. unfold w6. simpl. apply in_or_app. left.
    apply deliver_keeps. unfold w4. simpl. apply in_or_app. left.
    apply deliver_keeps. unfold w2. simpl. apply in_or_app. right.
    now left. }
  destruct H1 as (_ & Hc1 & _).
  pose proof (deliver_bound (firstn k2 late1) w2) as B3.
  pose proof (deliver_bound (firstn k3 late2) w4) as B5.
  pose proof (deliver_bound (firstn k4 late3) w6) as B7.
  fold w3 in B3. fold w5 in B5. fold w7 in B7.
  change (received_count w2) with n in B3.
  change (received_count w4) with (received_count w3) in B5.
  change (received_count w6) with (received_count w5) in B7.
  change (received_count w8) with (received_count w7).
  unfold n in *. lia.
Qed.

(** X13.  The main flow ends normally only when the target was reached: if
    it returns, the target count is positive, at least that many messages
    were delivered and counted, the gate was set by one [set()] call, and
    [disconnect()] was called exactly once.  However the delivery thread
    ran beside it, the number it logged lies between the target and the
    final counter, and its last call is the closing log entry. *)
Theorem normal_exit_needs_target (b : broker) (repo : Repo) (w' : world) :
  main b (initial repo) = Returns tt w' ->
  0 < count args <= received_count w' /\
  received_count w' <= Z.of_nat (message_count (deliveries b)) /\
  received_all_event w' = true /\
  set_calls (trace w') = 1%nat /\
  List.length (filter is_disconnect (trace w')) = 1%nat /\
  (exists before, trace w' = before ++ [LogInfo Disconnected]) /\
  exists n,
    In (LogInfo (MessagesReceived n)) (trace w') /\
    count args <= n <= received_count w'.
Proof.
  intros Hmain.
  destruct (Z.le_gt_cases (count args) 0) as [Hn|Hpos].
  { destruct (main_never_hits b repo Hn) as (_ & _ & Hr).
    rewrite Hmain in Hr. discriminate. }
  rewrite main_eq in Hmain.
  destruct (connect_answer b) as [sp|e]; [|discriminate].
  destruct (subscribe_answer b) as [granted|e]; [|discriminate].
  fold (waiting granted repo) in Hmain.
  destruct (until_set (deliveries b) (waiting granted repo))
    as [late w1] eqn:Hu.
  destruct (received_all_event w1) eqn:Hset; [|discriminate].
  pose proof (wake_on_track b granted repo Hpos Hu Hset) as H0.
  destruct (after_wait_on_track b H0)
    as (w8 & n & Hrun & Hg & Hc & Hd & Hin & Hcn).
  rewrite Hrun in Hmain.
  destruct (disconnect_answer b) as [u|e]; [|discriminate].
  injection Hmain as <-.
  assert (Hg' : gate_tracks (extend w8 [LogInfo Disconnected])).
  { destruct Hg as [Hg1 Hg2]. unfold gate_tracks. simpl.
    rewrite set_calls_app. unfold set_calls at 2. simpl.
    rewrite Nat.add_0_r. now split. }
  destruct (gate_tracks_reached Hg') as [Hset' Hcalls]; [simpl; lia|].
  simpl in *.
  split; [lia|]. split; [lia|]. split; [exact Hset'|].
  split; [exact Hcalls|].
  split; [rewrite filter_app, length_app, Hd; reflexivity|].
  split; [now eexists|].
  exists n. split; [apply in_or_app; now left|exact Hcn].
Qed.

(** X14.  With fewer messages delivered than the target count the main
    flow never ends normally and never disconnects, whatever the broker
    answers and however the deliveries end. *)
Theorem too_few_messages_never_disconnects (b : broker) (repo : Repo) :
  Z.of_nat (message_count (deliveries b)) < count args ->
  let r := main b (initial repo) in
  returned r = false /\
  exit_status r <> Some 0 /\
  received_all_event (world_of r) = false /\
  filter is_disconnect (trace (world_of r)) = [].
Proof.
  intros Hfew. simpl.
  assert (Hpos : 0 < count args) by lia.
  destruct (connect_answer b) as [sp|e] eqn:Hc;
    [|rewrite main_eq, Hc; simpl; repeat split; discriminate].
  destruct (subscribe_answer b) as [granted|e] eqn:Hs;
    [|rewrite main_eq, Hc, Hs; simpl; repeat split; discriminate].
  pose proof (deliver_gate_tracks (deliveries b)
                                  (waiting_gate_tracks granted repo Hpos))
    as [Hg _].
  pose proof (deliver_bound (deliveries b) (waiting granted repo)) as Hn.
  simpl in Hn.
  assert (Hgate : received_all_event
                    (world_of (deliver (deliveries b) (waiting granted repo)))
                  = false).
  { rewrite Hg. apply Z.leb_gt. lia. }
  rewrite (main_unset b repo Hc Hs Hgate). simpl.
  split; [reflexivity|]. split; [discriminate|]. split; [exact Hgate|].
  now rewrite deliver_disconnects.
Qed.

(** X15.  Once the target is reached the main flow ends normally.  With a
    positive target count, connect, subscribe and disconnect answered
    without error, and deliveries in which at least that many message
    handlers return, the main flow returns with exit status 0 after one
    [set()] call; however the delivery thread ran beside it, the final
    counter lies between the target and the number of messages delivered,
    and the number logged between the target and the final counter. *)
Theorem target_reached_exits_normally
        (b : broker) (sp : bool) (granted : QoS) (repo : Repo) :
  0 < count args
  <= Z.of_nat (handled (deliveries b) (waiting granted repo)) ->
  connect_answer b = FutureValue sp ->
  subscribe_answer b = FutureValue granted ->
  disconnect_answer b = FutureValue tt ->
  let r := main b (initial repo) in
  returned r = true /\
  exit_status r = Some 0 /\
  count args <= received_count (world_of r)
  <= Z.of_nat (message_count (deliveries b)) /\
  received_all_event (world_of r) = true /\
  set_calls (trace (world_of r)) = 1%nat /\
  exists n,
    In (LogInfo (MessagesReceived n)) (trace (world_of r)) /\
    count args <= n <= received_count (world_of r).
Proof.
  intros [Hpos Hle] Hc Hs Hd. simpl.
  rewrite main_eq, Hc, Hs.
  fold (waiting granted repo).
  pose proof (deliver_gate_tracks (deliveries b)
                                  (waiting_gate_tracks granted repo Hpos))
    as Hg.
  pose proof (deliver_count (deliveries b) (waiting granted repo)) as Hn.
  simpl in Hn.
  destruct (gate_tracks_reached Hg) as [Hset _]; [lia|].
  pose proof (until_set_set _ _ Hset) as Hwake.
  destruct (until_set (deliveries b) (waiting granted repo))
    as [late w1] eqn:Hu.
  simpl in Hwake. rewrite Hwake.
  pose proof (wake_on_track b granted repo Hpos Hu Hwake) as H0.
  destruct (after_wait_on_track b H0)
    as (w8 & n & Hrun & Hg8 & Hc8 & _ & Hin & Hcn).
  rewrite Hrun, Hd. simpl.
  assert (Hg' : gate_tracks (extend w8 [LogInfo Disconnected])).
  { destruct Hg8 as [Hg1 Hg2]. unfold gate_tracks. simpl.
    rewrite set_calls_app. unfold set_calls at 2. simpl.
    rewrite Nat.add_0_r. now split. }
  destruct (gate_tracks_reached Hg') as [Hset' Hcalls]; [simpl; lia|].
  simpl in *.
  split; [reflexivity|]. split; [reflexivity|]. split; [lia|].
  split; [exact Hset'|]. split; [exact Hcalls|].
  exists n. split; [apply in_or_app; now left|exact Hcn].
Qed.

Lemma after_wait_ends (b : broker) (late : list event) (w : world) :
  exists w',
    after_wait b late w
    = match disconnect_answer b with
      | FutureValue _ => Returns tt (extend w' [LogInfo Disconnected])
      | FutureException e => Raises e w'
      end.
Proof.
  eexists.
  unfold after_wait, bind, race_on, read_received_count, logging_info,
    future_get, bind, emit, raise, ret.
  destruct (disconnect_answer b) as [[]|e]; reflexivity.
Qed.

(** C4.  A rejected topic does not stop the process.  When the future of a
    resubscribe request completes with a result in which some topic has no
    granted QoS, [on_resubscribe_complete] does call [sys.exit] with a
    message naming the first such topic; but the SystemExit is raised on
    the delivery thread and ends that callback only.  The events that
    follow are handled from the world the callback left, and a main flow
    whose connect, subscribe and disconnect are answered without error
    never ends with exit status 1, whatever is delivered. *)
Theorem rejected_resubscribe_does_not_stop
        (results : resubscribe_results) (future : nat)
        (cbs : list done_callback) (rest : list event) (w : world) :
  callbacks_of future (futures w) = cb_on_resubscribe_complete :: cbs ->
  (exists t, rejected results t) ->
  exists t,
    rejected results t /\
    first_rejected results = Some t /\
    on_resubscribe_complete (FutureValue results) w
    = Raises (SystemExit
                (String.append "Server rejected resubscribe to topic: " t))
             (extend w [FutureResult; LogInfo (ResubscribeResults results)]) /\
    deliver (ResubscribeDone future (FutureValue results) :: rest) w
    = deliver rest
              {| received_count := received_count w;
                 received_all_event := received_all_event w;
                 state_repository := state_repository w;
                 futures := mark_done future (futures w);
                 trace := trace w ++
                          [ FutureResult;
                            LogInfo (ResubscribeResults results) ] |} /\
    forall (b : broker) (repo : Repo) (sp : bool) (granted : QoS),
      connect_answer b = FutureValue sp ->
      subscribe_answer b = FutureValue granted ->
      disconnect_answer b = FutureValue tt ->
      exit_status (main b (initial repo)) <> Some 1.
Proof.
  intros Hcb Hrej.
  destruct (rejected_first _ Hrej) as [t Ht].
  exists t.
  split; [now apply first_rejected_in|]. split; [exact Ht|].
  split; [rewrite on_resubscribe_complete_eq; simpl; now rewrite Ht|].
  split.
  { cbn [deliver handle]. unfold bind, complete_future. rewrite Hcb.
    cbn [invoke_callbacks call_done_callback].
    rewrite on_resubscribe_complete_eq. simpl. rewrite Ht. reflexivity. }
  intros b repo sp granted Hc Hs Hd.
  rewrite main_eq, Hc, Hs.
  destruct (until_set (deliveries b) _) as [late w1].
  destruct (received_all_event w1); [|discriminate].
  destruct (after_wait_ends b late w1) as [w' Hrun].
  rewrite Hrun, Hd. discriminate.
Qed.

End Subscriber.

Arguments Raises {Repo A} e w.
Arguments Blocks {Repo A} w.

(** ** Start-up *)

(** X16.  Every value the parser admits for [--log-level], its default
    included, is a key of [loglevel_dict], and the dictionary has no other
    key: the lookup at start-up cannot raise KeyError.  Each name maps to
    the logging level of that name. *)
Theorem log_level_always_resolves :
  (forall level,
      In level Startup.log_level_choices <->
      exists n, Startup.getitem Startup.loglevel_dict level = Some n) /\
  In Startup.log_level_default Startup.log_level_choices /\
  Startup.getitem Startup.loglevel_dict "INFO" = Some 20 /\
  Startup.getitem Startup.loglevel_dict "DEBUG" = Some 10 /\
  Startup.getitem Startup.loglevel_dict "ERROR" = Some 40 /\
  Startup.getitem Startup.loglevel_dict "WARNING" = Some 30.
Proof.
  split; [|repeat split; simpl; auto].
  intros level. split.
  - intros [<-|[<-|[<-|[<-|[]]]]]; eexists; reflexivity.
  - intros [n Hn]. unfold Startup.loglevel_dict, Startup.getitem in Hn.
    unfold Startup.log_level_choices. simpl.
    destruct (String.eqb_spec "INFO" level) as [->|_]; [auto|].
    destruct (String.eqb_spec "DEBUG" level) as [->|_]; [auto|].
    destruct (String.eqb_spec "ERROR" level) as [->|_]; [auto|].
    destruct (String.eqb_spec "WARNING" level) as [->|_]; [auto 6|].
    discriminate.
Qed.

(** ** The properties at the sample runs *)

Lemma gate_set_at_target_witness :
  let run := deliver Sample.exec_switchbot (Sample.args_n 3) Sample.busy
                     (initial (Repo:=Sample.Repo) []) in
  message_count Sample.busy = 4%nat /\
  received_count (world_of run) = 4 /\
  received_all_event (world_of run) = true /\
  set_calls (trace (world_of run)) = 1%nat.
Proof.
  intros run.
  split; [reflexivity|].
  destruct (@gate_set_at_target _ Sample.exec_switchbot (Sample.args_n 3) 3
                                Sample.busy []
                                (fun H => O_S _ (eq_sym H)) eq_refl)
    as (Hc & Hg & Hs & _).
  split; [exact Hc|]. split; [exact Hg|exact Hs].
Defined.

Lemma gate_never_set_unbounded_witness :
  let run := main Sample.exec_switchbot (Sample.args_n 0)
                  (Sample.accepting (messages Sample.three))
                  (initial (Repo:=Sample.Repo) []) in
  count (Sample.args_n 0) = 0 /\
  received_all_event (world_of run) = false /\
  returned run = false.
Proof.
  intros run.
  split; [reflexivity|].
  destruct (@gate_never_set_unbounded
              _ Sample.exec_switchbot (Sample.args_n 0)
              (messages Sample.three)
              (Sample.accepting (messages Sample.three)) [] eq_refl)
    as (_ & _ & Hg & _ & Hr).
  split; [exact Hg|exact Hr].
Defined.

Lemma gate_never_set_negative_witness :
  let run := main Sample.exec_switchbot (Sample.args_n (-1))
                  (Sample.accepting (messages Sample.three))
                  (initial (Repo:=Sample.Repo) []) in
  count (Sample.args_n (-1)) < 0 /\
  received_all_event (world_of run) = false /\
  returned run = false.
Proof.
  intros run.
  split; [reflexivity|].
  destruct (@gate_never_set_negative
              _ Sample.exec_switchbot (Sample.args_n (-1))
              (messages Sample.three)
              (Sample.accepting (messages Sample.three)) [] eq_refl)
    as (_ & _ & Hg & Hr & _).
  split; [exact Hg|exact Hr].
Defined.

Lemma resumed_resubscribes_iff_witness :
  futures (world_of (on_connection_resumed ACCEPTED false
                                           (initial (Repo:=Sample.Repo) [])))
  = [Pending [cb_on_resubscribe_complete]] /\
  world_of (on_connection_resumed ACCEPTED true
                                  (initial (Repo:=Sample.Repo) []))
  = extend (initial []) [LogInfo (ConnectionResumed ACCEPTED true)].
Proof.
  split.
  - destruct (@resumed_resubscribes_iff Sample.Repo ACCEPTED false (initial []))
      as (_ & _ & H & _).
    destruct (H (conj eq_refl eq_refl)) as (delta & _ & _ & _ & _ & Hf & _).
    exact Hf.
  - destruct (@resumed_resubscribes_iff Sample.Repo ACCEPTED true (initial []))
      as (_ & _ & _ & H).
    apply H. intros [_ Hsp]. discriminate Hsp.
Defined.

Lemma rejected_resubscribe_does_not_stop_witness :
  let run := main Sample.exec_switchbot (Sample.args_n 3)
                  (Sample.accepting Sample.lost_session)
                  (initial (Repo:=Sample.Repo) []) in
  rejected [("test/topic", None)] "test/topic" /\
  on_resubscribe_complete (FutureValue [("test/topic", None)])
                          (initial (Repo:=Sample.Repo) [])
  = Raises (SystemExit "Server rejected resubscribe to topic: test/topic")
           (extend (initial [])
                   [FutureResult;
                    LogInfo (ResubscribeResults [("test/topic", None)])]) /\
  exit_status run <> Some 1 /\
  run = Blocks (world_of run) /\
  received_count (world_of run) = 2 /\
  processor_calls (trace (world_of run))
  = [[111%N; 110%N]; [111%N; 102%N; 102%N]].
Proof.
  intros run.
  assert (Hrej : rejected [("test/topic", None)] "test/topic")
    by (left; reflexivity).
  split; [exact Hrej|].
  set (w0 := world_of (on_connection_resumed
                         ACCEPTED false (initial (Repo:=Sample.Repo) []))).
  destruct (@rejected_resubscribe_does_not_stop
              _ Sample.exec_switchbot (Sample.args_n 3)
              [("test/topic", None)] 0%nat []
              [Message "test/topic" Sample.off] w0
              eq_refl (ex_intro _ "test/topic" Hrej))
    as (t & _ & Ht & _ & _ & Hexit).
  split; [reflexivity|].
  split.
  { exact (Hexit (Sample.accepting Sample.lost_session) [] true
                 AT_MOST_ONCE eq_refl eq_refl eq_refl). }
  split; [vm_compute; reflexivity|].
  split; vm_compute; reflexivity.
Defined.

Lemma message_decode_process_count_witness :
  let run := on_message_received Sample.exec_switchbot (Sample.args_n 3)
                                 "test/topic" Sample.sun
                                 (initial (Repo:=Sample.Repo) []) in
  Utf8.decode Sample.sun = Some [9728%N] /\
  run = Returns tt (world_of run) /\
  received_count (world_of run) = 1 /\
  state_repository (world_of run) = [[9728%N]] /\
  processor_calls (trace (world_of run)) = [[9728%N]].
Proof.
  intros run.
  split; [reflexivity|].
  pose proof (@message_decode_process_count
                _ Sample.exec_switchbot (Sample.args_n 3)
                "test/topic" Sample.sun (initial [])) as H.
  change (Utf8.decode Sample.sun) with (Some [9728%N]) in H.
  cbv zeta in H.
  destruct H as (Hr & Hp & Hret & Hc & _).
  split; [exact Hret|]. split; [exact Hc|]. split; [exact Hr|exact Hp].
Defined.

Lemma failed_message_leaves_dispatcher_witness :
  Utf8.decode Sample.garbage = None /\
  exists e w',
    on_message_received Sample.exec_switchbot (Sample.args_n 1)
                        "test/topic" Sample.garbage
                        (initial (Repo:=Sample.Repo) [])
    = Raises e w' /\
    received_count w' = 0 /\
    received_all_event w' = false.
Proof.
  split; [reflexivity|].
  destruct (@failed_message_leaves_dispatcher
              _ Sample.exec_switchbot (Sample.args_n 1)
              "test/topic" Sample.garbage (initial [])
              (or_introl eq_refl))
    as (e & w' & Hrun & Hc & Hg & _).
  exists e, w'. split; [exact Hrun|]. split; [exact Hc|exact Hg].
Defined.

Lemma message_order_preserved_witness :
  decoded_payloads Sample.mixed = [[111%N; 110%N]] /\
  processor_calls
    (trace (world_of (deliver Sample.exec_switchbot (Sample.args_n 3)
                              (messages Sample.mixed)
                              (initial (Repo:=Sample.Repo) []))))
  = [[111%N; 110%N]] /\
  map (fun m => Utf8.decode (snd m)) Sample.three
  = map Some (decoded_payloads Sample.three).
Proof.
  split; [reflexivity|].
  destruct (@message_order_preserved
              _ Sample.exec_switchbot (Sample.args_n 3)
              Sample.mixed (initial []))
    as (Hcalls & _).
  split; [exact Hcalls|].
  destruct (@message_order_preserved
              _ Sample.exec_switchbot (Sample.args_n 3)
              Sample.three (initial []))
    as (_ & Hall & _).
  apply Hall.
  intros m [<-|[<-|[<-|[]]]]; discriminate.
Defined.

Lemma interrupted_only_logs_witness :
  first_rejected [("test/topic", Some AT_MOST_ONCE)] = None /\
  exists w1 w2,
    deliver Sample.exec_switchbot (Sample.args_n 3) Sample.recovered
            (initial (Repo:=Sample.Repo) [])
    = Returns tt w1 /\
    on_message_received Sample.exec_switchbot (Sample.args_n 3)
                        "test/topic" Sample.on w1
    = Returns tt w2 /\
    received_count w2 = 1.
Proof.
  split; [reflexivity|].
  destruct (@interrupted_only_logs
              _ Sample.exec_switchbot (Sample.args_n 3)
              "AWS_ERROR_MQTT_UNEXPECTED_HANGUP" (initial []))
    as (_ & _ & _ & _ & _ & _ & Hcycle).
  destruct (Hcycle [("test/topic", Some AT_MOST_ONCE)] eq_refl)
    as (w1 & Hrun & _ & Hmsg).
  destruct (Hmsg "test/topic" Sample.on [111%N; 110%N] [[111%N; 110%N]]
                 eq_refl eq_refl)
    as (w2 & Hrun2 & Hc).
  exists w1, w2. split; [exact Hrun|]. split; [exact Hrun2|exact Hc].
Defined.

Lemma connect_rejected_exits_witness :
  let run := main Sample.exec_switchbot (Sample.args_n 3) Sample.refusing
                  (initial (Repo:=Sample.Repo) []) in
  connect_answer Sample.refusing
  = FutureException (AwsCrtError "AWS_ERROR_MQTT_UNEXPECTED_HANGUP") /\
  exit_status run = Some 1 /\
  filter is_subscribe (trace (world_of run)) = [].
Proof.
  intros run.
  split; [reflexivity|].
  destruct (@connect_rejected_exits
              _ Sample.exec_switchbot (Sample.args_n 3) Sample.refusing
              _ [] eq_refl)
    as (_ & Hstatus & Hsub & _).
  split; [exact Hstatus|exact Hsub].
Defined.

Lemma run_only_grows_witness :
  let w := world_of (deliver Sample.exec_switchbot (Sample.args_n 1)
                             (messages Sample.three)
                             (initial (Repo:=Sample.Repo) [])) in
  received_all_event w = true /\
  received_all_event
    (world_of (deliver Sample.exec_switchbot (Sample.args_n 1)
                       Sample.busy w)) = true.
Proof.
  intros w.
  assert (Hw : received_all_event w = true) by (vm_compute; reflexivity).
  split; [exact Hw|].
  destruct (@run_only_grows _ Sample.exec_switchbot (Sample.args_n 1)
                            Sample.busy w)
    as (_ & _ & Hg & _).
  exact (Hg Hw).
Defined.


Lemma lifecycle_events_frame_witness :
  let r := deliver Sample.exec_switchbot (Sample.args_n 3)
                   Sample.refused_cycle (initial (Repo:=Sample.Repo) []) in
  forallb (fun ev => negb (is_message ev)) Sample.refused_cycle = true /\
  received_count (world_of r) = 0 /\
  received_all_event (world_of r) = false /\
  processor_calls (trace (world_of r)) = [].
Proof.
  intros r.
  split; [reflexivity|].
  destruct (@lifecycle_events_frame
              _ Sample.exec_switchbot (Sample.args_n 3)
              Sample.refused_cycle (initial []) eq_refl)
    as (Hc & Hg & _ & Hp & _).
  split; [exact Hc|]. split; [exact Hg|exact Hp].
Defined.

Lemma ascii_payload_reaches_processor_witness :
  let r := on_message_received Sample.exec_switchbot (Sample.args_n 3)
                               "test/topic" Sample.off
                               (initial (Repo:=Sample.Repo) []) in
  forallb (fun b => (Byte.to_N b <? 0x80)%N) Sample.off = true /\
  Utf8.decode Sample.off = Some [111%N; 102%N; 102%N] /\
  processor_calls (trace (world_of r)) = [[111%N; 102%N; 102%N]].
Proof.
  intros r.
  split; [reflexivity|].
  destruct (@ascii_payload_reaches_processor
              _ Sample.exec_switchbot (Sample.args_n 3)
              "test/topic" Sample.off (initial []) eq_refl)
    as (Hd & Hp & _).
  split; [exact Hd|exact Hp].
Defined.

Lemma resubscribe_exit_names_first_rejected_witness :
  let results := [ ("a", Some AT_MOST_ONCE); ("b", None); ("c", None) ] in
  let r := on_resubscribe_complete (FutureValue results)
                                   (initial (Repo:=Sample.Repo) []) in
  returned r = false /\
  exists t granted rest w',
    results = granted ++ (t, None) :: rest /\
    (forall t', ~ rejected granted t') /\
    r = Raises (SystemExit
                  (String.append "Server rejected resubscribe to topic: " t)) w'.
Proof.
  intros results r.
  assert (Hr : returned r = false) by reflexivity.
  split; [exact Hr|].
  destruct (@resubscribe_exit_names_first_rejected
              Sample.Repo results (initial []))
    as (_ & _ & H).
  destruct (H Hr) as (t & granted & rest & Hsplit & Hgranted & Hrun).
  exists t, granted, rest. eexists.
  split; [exact Hsplit|]. split; [exact Hgranted|exact Hrun].
Defined.

Lemma failed_resubscribe_future_raises_witness :
  let w := world_of (on_connection_resumed ACCEPTED false
                                           (initial (Repo:=Sample.Repo) [])) in
  let r := deliver Sample.exec_switchbot (Sample.args_n 3)
                   [ ResubscribeDone
                       0 (FutureException (AwsCrtError "AWS_ERROR_MQTT_TIMEOUT"));
                     Message "test/topic" Sample.on ] w in
  callbacks_of 0 (futures w) = [cb_on_resubscribe_complete] /\
  received_count (world_of r) = 1 /\
  state_repository (world_of r) = [[111%N; 110%N]].
Proof.
  intros w r.
  split; [reflexivity|].
  destruct (@failed_resubscribe_future_raises
              _ Sample.exec_switchbot (Sample.args_n 3)
              (AwsCrtError "AWS_ERROR_MQTT_TIMEOUT") w)
    as (_ & _ & _ & _ & _ & _ & H).
  pose proof (H 0%nat [Message "test/topic" Sample.on] eq_refl) as Hrun.
  change (r = deliver Sample.exec_switchbot (Sample.args_n 3)
                      [Message "test/topic" Sample.on]
                      {| received_count := received_count w;
                         received_all_event := received_all_event w;
                         state_repository := state_repository w;
                         futures := mark_done 0 (futures w);
                         trace := trace w ++ [FutureResult] |}) in Hrun.
  rewrite Hrun.
  split; reflexivity.
Defined.

Lemma every_request_has_its_callback_witness :
  let r := deliver Sample.exec_switchbot (Sample.args_n 3) Sample.busy
                   (initial (Repo:=Sample.Repo) []) in
  returned r = true /\
  resubscribe_requests (trace (world_of r)) = 1%nat /\
  List.length (futures (world_of r)) = 1%nat.
Proof.
  intros r.
  assert (Hr : returned r = true) by (vm_compute; reflexivity).
  split; [exact Hr|].
  destruct (@every_request_has_its_callback
              _ Sample.exec_switchbot (Sample.args_n 3) Sample.busy [])
    as (_ & Hlen & _ & Heq).
  specialize (Heq Hr).
  split; [exact Heq|].
  etransitivity; [exact Hlen|exact Heq].
Defined.


Lemma normal_exit_needs_target_witness :
  let r := main Sample.exec_switchbot (Sample.args_n 3)
                (Sample.overrunning Sample.busy)
                (initial (Repo:=Sample.Repo) []) in
  returned r = true /\
  In (LogInfo (MessagesReceived 3)) (trace (world_of r)) /\
  received_count (world_of r) = 4 /\
  set_calls (trace (world_of r)) = 1%nat /\
  List.length (filter is_disconnect (trace (world_of r))) = 1%nat.
Proof.
  intros r.
  assert (Hr : r = Returns tt (world_of r)) by (vm_compute; reflexivity).
  split; [vm_compute; reflexivity|].
  split; [vm_compute; tauto|].
  split; [vm_compute; reflexivity|].
  destruct (@normal_exit_needs_target
              _ Sample.exec_switchbot (Sample.args_n 3)
              (Sample.overrunning Sample.busy) [] (world_of r) Hr)
    as (_ & _ & _ & Hs & Hd & _).
  split; [exact Hs|exact Hd].
Defined.

Lemma too_few_messages_never_disconnects_witness :
  let r := main Sample.exec_switchbot (Sample.args_n 5)
                (Sample.accepting Sample.busy)
                (initial (Repo:=Sample.Repo) []) in
  Z.of_nat (message_count Sample.busy) < 5 /\
  returned r = false /\
  filter is_disconnect (trace (world_of r)) = [].
Proof.
  intros r.
  assert (Hfew : Z.of_nat (message_count Sample.busy) < 5) by reflexivity.
  split; [exact Hfew|].
  destruct (@too_few_messages_never_disconnects
              _ Sample.exec_switchbot (Sample.args_n 5)
              (Sample.accepting Sample.busy) [] Hfew)
    as (Hr & _ & _ & Hd).
  split; [exact Hr|exact Hd].
Defined.

Lemma target_reached_exits_normally_witness :
  let b := Sample.overrunning
             (messages (("test/topic", Sample.garbage) :: Sample.three)
              ++ messages Sample.mixed) in
  let r := main Sample.exec_switchbot (Sample.args_n 3) b
                (initial (Repo:=Sample.Repo) []) in
  handled Sample.exec_switchbot (Sample.args_n 3) (deliveries b)
          (waiting (Sample.args_n 3) AT_MOST_ONCE (Repo:=Sample.Repo) [])
  = 4%nat /\
  exit_status r = Some 0 /\
  received_all_event (world_of r) = true /\
  set_calls (trace (world_of r)) = 1%nat.
Proof.
  intros b r.
  split; [vm_compute; reflexivity|].
  assert (Hrange : 0 < count (Sample.args_n 3)
                   <= Z.of_nat
                        (handled Sample.exec_switchbot (Sample.args_n 3)
                                 (deliveries b)
                                 (waiting (Sample.args_n 3) AT_MOST_ONCE
                                          (Repo:=Sample.Repo) [])))
    by (vm_compute; split; [reflexivity|discriminate]).
  destruct (@target_reached_exits_normally
              _ Sample.exec_switchbot (Sample.args_n 3) b
              true AT_MOST_ONCE [] Hrange eq_refl eq_refl eq_refl)
    as (_ & Hs & _ & Hg & Hc & _).
  split; [exact Hs|]. split; [exact Hg|exact Hc].
Defined.
